(** * FlowCheck: the job-progress tracker and the report projection

    A shallow embedding of the two pages of the client that carry logic:

    - [ProcessingPage] (the polling effect of the page that tracks a running
      analysis): the stage list, the updater handed to [setProcessedSteps]
      and the event loop around [pollProgress];
    - [ResultsPage] (the values the report derives from the payload while
      rendering).

    Modelling conventions.  A finite JavaScript number is represented by the
    rational it denotes ([Q]), so comparisons are exact; [*], [/] and [+]
    are the operations of IEEE 754 doubles ([Binary64]): the exact result
    rounded to the nearest double, or an infinity.  [current_step] is an
    integer ([Z]).  A payload follows its TypeScript interface: a property
    is absent ([None]) or holds a value of its declared type; reading a
    property of [undefined] raises [TypeError].  Objects that are only
    iterated ([Object.entries]) are association lists in iteration order. *)

From stdpp Require Import base list strings pretty.
From Stdlib Require Import Ascii ZArith QArith Qabs Qround Qreduction Qpower Lia Lqa.

Local Open Scope Z_scope.

(** ** The fragment of the JavaScript runtime the pages use *)

Module JS.

(** A finite number, by the rational it denotes. *)
Definition number : Type := Q.

(** What evaluating an expression can raise. *)
Inductive Error := TypeError (message : string).

(** [x <= y], [x >= y], [x === y] on numbers. *)
Definition le (x y : number) : bool := Qle_bool x y.
Definition ge (x y : number) : bool := Qle_bool y x.
Definition strictEq (x y : number) : bool := Qeq_bool x y.

(** [x || y] on numbers: [y] when [x] is zero. *)
Definition orElse (x y : number) : number :=
  if Qeq_bool x 0%Q then y else x.

(** [Math.round] of a finite number: the nearest integer, a tie going
    towards plus infinity. *)
Definition Math_round (x : number) : number :=
  inject_Z (Qfloor (x + (1 # 2))%Q).

(** The numeral built by [Number.prototype.toFixed(1)] for a number below
    [10^21] in size: the sign taken off first, then the integer [n] for
    which [n / 10] is nearest to the magnitude, the larger one on a tie. *)
Record Fixed1 := mkFixed1 {
  negative : bool;
  tenths : Z;
}.

Definition toFixed1 (x : number) : Fixed1 :=
  {| negative := negb (Qle_bool 0%Q x);
     tenths := Qfloor (Qabs x * 10 + (1 # 2))%Q |}.

(** Its characters: integer part, point, one digit. *)
Definition digits (d : Fixed1) : string :=
  (if negative d then "-" else "")
  +:+ pretty (tenths d / 10) +:+ "." +:+ pretty (tenths d mod 10).

(** The decimal that such a numeral spells. *)
Definition parseFloat (d : Fixed1) : number :=
  ((if negative d then -1 else 1) * (inject_Z (tenths d) / 10))%Q.

(** [Array.prototype.slice(start)] with one argument. *)
Definition slice {A} (start : Z) (l : list A) : list A :=
  let len := Z.of_nat (length l) in
  let k := if start <? 0 then Z.max (len + start) 0 else Z.min start len in
  drop (Z.to_nat k) l.

(** [Object.entries] of an object kept as its own-property list. *)
Abbreviation Record_ V := (list (string * V)) (only parsing).
Definition Object_entries {V} (o : Record_ V) : list (string * V) := o.

End JS.

(** ** Double-precision arithmetic

    The pages compute with IEEE 754 doubles.  A finite double is kept as the
    rational it denotes; a zero of either sign is [0], as no page divides by
    a zero and nothing else that the pages do tells the two apart.  The
    result of an operation is the exact result rounded to the nearest
    double, a tie going to the even significand, or an infinity when it is
    out of range. *)

Module Binary64.
Import JS.

Inductive Double :=
| Finite (x : Q)
| Infinity (negative : bool)
| NaN.

#[global] Coercion Finite : Q >-> Double.

Definition pow2 (k : Z) : Q := (2 ^ k)%Q.

(** The exponent [e] with [2^e <= a < 2^(e+1)], for [a > 0]. *)
Definition ilog2 (a : Q) : Z :=
  let e0 := Z.log2 (Qnum a) - Z.log2 (Zpos (Qden a)) in
  if Qle_bool (pow2 e0) a then e0 else e0 - 1.

(** The nearest integer, a tie going to the even one. *)
Definition roundEven (m : Q) : Z :=
  let f := Qfloor m in
  match Qcompare (m - inject_Z f) (1 # 2) with
  | Lt => f
  | Gt => f + 1
  | Eq => if Z.even f then f else f + 1
  end.

Definition isNegative (x : Q) : bool := negb (Qle_bool 0%Q x).

(** Rounding to a double: 53 significant bits, the last bit no finer than
    [2^-1074], and infinity from [2^1024] on. *)
Definition round64 (x : Q) : Double :=
  let x := Qred x in
  if Qeq_bool x 0%Q then Finite 0%Q
  else
    let a := Qabs x in
    let q := Z.max (ilog2 a) (-1022) - 52 in
    let r := (inject_Z (roundEven (a / pow2 q)) * pow2 q)%Q in
    if Qle_bool (pow2 1024) r then Infinity (isNegative x)
    else Finite (Qred (if isNegative x then - r else r)).

(** [x * y] *)
Definition mul (x y : Double) : Double :=
  match x, y with
  | NaN, _ | _, NaN => NaN
  | Finite a, Finite b => round64 (a * b)
  | Infinity s, Finite b | Finite b, Infinity s =>
      if Qeq_bool b 0%Q then NaN else Infinity (xorb s (isNegative b))
  | Infinity s, Infinity t => Infinity (xorb s t)
  end.

(** [x / y]; a zero divisor counts as [+0] (no page divides by zero). *)
Definition div (x y : Double) : Double :=
  match x, y with
  | NaN, _ | _, NaN => NaN
  | Finite a, Finite b =>
      if Qeq_bool b 0%Q then
        if Qeq_bool a 0%Q then NaN else Infinity (isNegative a)
      else round64 (a / b)
  | Finite _, Infinity _ => Finite 0%Q
  | Infinity s, Finite b => Infinity (xorb s (isNegative b))
  | Infinity _, Infinity _ => NaN
  end.

(** [x + y] *)
Definition add (x y : Double) : Double :=
  match x, y with
  | NaN, _ | _, NaN => NaN
  | Finite a, Finite b => round64 (a + b)
  | Infinity s, Finite _ | Finite _, Infinity s => Infinity s
  | Infinity s, Infinity t => if eqb s t then Infinity s else NaN
  end.

(** [x <= y] and [x < y]; false as soon as one side is [NaN]. *)
Definition leb (x y : Double) : bool :=
  match x, y with
  | NaN, _ | _, NaN => false
  | Finite a, Finite b => Qle_bool a b
  | Infinity s, Finite _ => s
  | Finite _, Infinity t => negb t
  | Infinity s, Infinity t => s || negb t
  end.

Definition ltb (x y : Double) : bool :=
  match x, y with
  | NaN, _ | _, NaN => false
  | Finite a, Finite b => negb (Qle_bool b a)
  | Infinity s, Finite _ => s
  | Finite _, Infinity t => negb t
  | Infinity s, Infinity t => s && negb t
  end.

(** [x || y]: [y] when [x] is zero or [NaN]. *)
Definition orElse (x y : Double) : Double :=
  match x with
  | Finite a => if Qeq_bool a 0%Q then y else x
  | Infinity _ => x
  | NaN => y
  end.

(** [Math.round] *)
Definition Math_round (x : Double) : Double :=
  match x with
  | Finite a => Finite (JS.Math_round a)
  | _ => x
  end.

(** What [Number.prototype.toFixed(1)] prints: positional digits below
    [10^21], the general notation of the number from there on, and the names
    of the values that are not finite. *)
Inductive Numeral :=
| Digits (d : Fixed1)
| Exponential (x : Q)
| InfinityText (negative : bool)
| NaNText.

#[global] Coercion Digits : Fixed1 >-> Numeral.

Definition toFixed (x : Double) : Numeral :=
  match x with
  | NaN => NaNText
  | Infinity s => InfinityText s
  | Finite a =>
      if Qle_bool (inject_Z (10 ^ 21)) (Qabs a) then Exponential a
      else Digits (toFixed1 a)
  end.

(** The digits by which [Number::toString] identifies a double [a] from
    [10^21] on: the fewest digits [s] (there are [k] of them) such that
    [s * 10^(n - k)] rounds to [a], and among those the nearest to [a]. *)
Definition roundsTo (a : Q) (v : Z) : bool :=
  match round64 (inject_Z v) with
  | Finite r => Qeq_bool r a
  | _ => false
  end.

Definition shortestWith (a : Q) (n0 k : Z) : option (Z * Z) :=
  let scale := 10 ^ (n0 - k) in
  let lo := Qfloor (a / inject_Z scale) in
  let hi := lo + 1 in
  let below := (a - inject_Z (lo * scale))%Q in
  let above := (inject_Z (hi * scale) - a)%Q in
  let pick :=
    match roundsTo a (lo * scale), roundsTo a (hi * scale) with
    | true, true =>
        match Qcompare below above with
        | Lt => Some lo
        | Gt => Some hi
        | Eq => Some (if Z.even lo then lo else hi)
        end
    | true, false => Some lo
    | false, true => Some hi
    | false, false => None
    end in
  match pick with
  | Some s => Some (if s =? 10 ^ k then (10 ^ (k - 1), n0 + 1) else (s, n0))
  | None => None
  end.

Fixpoint shortest (a : Q) (n0 : Z) (k : Z) (fuel : nat) : Z * Z :=
  match fuel with
  | O => (Qfloor (a / inject_Z (10 ^ (n0 - k))), n0)
  | S fuel =>
      match shortestWith a n0 k with
      | Some r => r
      | None => shortest a n0 (k + 1) fuel
      end
  end.

(** [Number::toString] of a double [a >= 10^21]: [d.ddde+x].  Seventeen
    digits identify every double. *)
Definition toStringLarge (a : Q) : string :=
  let n0 := Z.of_nat (String.length (pretty (Qfloor a))) in
  let '(s, n) := shortest a n0 1 17 in
  match pretty s with
  | String d "" => String d "" +:+ "e+" +:+ pretty (n - 1)
  | String d rest => String d "" +:+ "." +:+ rest +:+ "e+" +:+ pretty (n - 1)
  | EmptyString => ""
  end.

(** The characters of a numeral. *)
Definition print (n : Numeral) : string :=
  match n with
  | Digits d => digits d
  | Exponential a =>
      (if isNegative a then "-" else "") +:+ toStringLarge (Qabs a)
  | InfinityText s => if s then "-Infinity" else "Infinity"
  | NaNText => "NaN"
  end.

(** [parseFloat] of such a numeral: the double nearest to the decimal that
    the digits spell, or the double that the general notation identifies. *)
Definition parseFloat (n : Numeral) : Double :=
  match n with
  | Digits d => round64 (JS.parseFloat d)
  | Exponential a => Finite a
  | InfinityText s => Infinity s
  | NaNText => NaN
  end.

(** The distance that rounding to a double can put between a number and
    its double: half a unit in the 53rd bit, or [2^-1075] near zero. *)
Definition roundingError (x : Q) : Q :=
  (Qabs x * pow2 (-53) + pow2 (-1075))%Q.

End Binary64.

(** ** The report page *)

Module ResultsPage.
Import JS Binary64.

(** A number of the payload is a finite double, kept as the rational it
    denotes; it enters the arithmetic of the page through [Finite]. *)

(** One month of [monthly_flows]. *)
Record MonthlyFlow := mkFlow {
  deposits : option number;
  withdrawals : option number;
  end_balance : option number;
  flow_debt_to_income : option number;
}.

(** [analysis_summary]; a field is [None] when the property is absent. *)
Record AnalysisSummary := mkSummary {
  total_deposits : option number;
  total_withdrawals : option number;
  net_cash_flow : option number;
  debt_to_income : option number;
  monthly_flows : option (Record_ MonthlyFlow);
}.

(** An entry of [data_issues]; the transaction is kept as its JSON text. *)
Record DataIssue := mkIssue {
  reason : option string;
  transaction : option string;
}.

(** [interface GeminiResult], the fields the page reads; a field is [None]
    when the property is absent, and a property that is present holds a
    value of the declared type. *)
Record GeminiResult := mkResult {
  session_id : option string;
  loan_amount_requested : option number;
  analysis_summary : option AnalysisSummary;
  loan_score : option number;
  summary_paragraph : option string;
  spending_by_category : option (Record_ number);
  data_issues : option (list DataIssue);
}.

(** [{} as GeminiResult] *)
Definition emptyResult : GeminiResult :=
  mkResult None None None None None None None.

(** The default of the destructuring of [analysis_summary]. *)
Definition defaultSummary : AnalysisSummary :=
  mkSummary (Some 0%Q) (Some 0%Q) (Some 0%Q) (Some 0%Q) None.

(** [{ label, color }] *)
Record Badge := mkBadge {
  label : string;
  color : string;
}.

Definition getDtiRisk (ratio : Double) : Badge :=
  if leb ratio 28%Q then mkBadge "Low risk" "text-emerald-600"
  else if leb ratio 36%Q then mkBadge "Moderate risk" "text-yellow-600"
  else mkBadge "High risk" "text-red-600".

Definition getLoanVerdict (score : number) : Badge :=
  if ge score 80%Q then mkBadge "Likely Approved" "text-emerald-600"
  else if ge score 60%Q then mkBadge "Requires Review" "text-yellow-600"
  else mkBadge "High Risk" "text-red-600".

(** [(debt_to_income * 100).toFixed(1)] *)
Definition dtiRatio (debt_to_income : number) : Numeral :=
  toFixed (mul debt_to_income 100%Q).

(** [getDtiRisk(parseFloat(dtiRatio))] *)
Definition dtiRisk (debt_to_income : number) : Badge :=
  getDtiRisk (parseFloat (dtiRatio debt_to_income)).

(** Rows of the bar chart and of the balance line. *)
Record MonthlyDatum := mkMonthly {
  m_month : string;
  m_deposits : option number;
  m_withdrawals : option number;
}.

Record BalanceDatum := mkBalance {
  b_month : string;
  b_balance : option number;
}.

(** [entries.slice(-6)] *)
Definition last6 (flows : Record_ MonthlyFlow) : list (string * MonthlyFlow) :=
  slice (-6) (Object_entries flows).

Definition monthlyData (flows : Record_ MonthlyFlow) : list MonthlyDatum :=
  (fun '(month, f) => mkMonthly month (deposits f) (withdrawals f))
    <$> last6 flows.

Definition balanceData (flows : Record_ MonthlyFlow) : list BalanceDatum :=
  (fun '(month, f) => mkBalance month (end_balance f)) <$> last6 flows.

(** A slice of the pie chart. *)
Record SpendingDatum := mkSpending {
  category : string;
  value : number;
  amount : Double;
}.

(** [amount: Math.round((value / 100) * total_withdrawals)] *)
Definition spendingData (pct : Record_ number) (total_withdrawals : number)
  : list SpendingDatum :=
  (fun '(category, value) =>
     mkSpending category value
       (Math_round (mul (div value 100%Q) total_withdrawals)))
    <$> Object_entries pct.

(** The line under the net cash flow:
    [net_cash_flow === 0 ? '––' : ` ${(...).toFixed(1)}% of total activity`]. *)
Definition netFlowDenominator (total_deposits total_withdrawals : number)
  : Double :=
  orElse (add total_deposits total_withdrawals) 1%Q.

Definition netFlowPercent
    (net_cash_flow total_deposits total_withdrawals : number) : Numeral :=
  toFixed
    (mul (div net_cash_flow
              (netFlowDenominator total_deposits total_withdrawals))
         100%Q).

Definition netFlowCaption
    (net_cash_flow total_deposits total_withdrawals : number) : string :=
  if strictEq net_cash_flow 0%Q then "––"
  else " " +:+ print (netFlowPercent net_cash_flow total_deposits total_withdrawals)
       +:+ "% of total activity".

(** The line under the ratio:
    [debt_to_income === 0 ? '––' : `${...}% of income`]. *)
Definition dtiCaption (debt_to_income : number) : string :=
  if strictEq debt_to_income 0%Q then "––"
  else print (toFixed (mul debt_to_income 100%Q)) +:+ "% of income".

(** The flagged-statements card: a table row per issue, keyed by its index,
    or the empty state. *)
Inductive IssuesCard :=
| IssueRows (rows : list (nat * DataIssue))
| NoFlaggedStatements.

Definition issuesCard (data_issues : list DataIssue) : IssuesCard :=
  if decide (0 < length data_issues)%nat
  then IssueRows (imap (fun idx issue => (idx, issue)) data_issues)
  else NoFlaggedStatements.

(** Everything the page computes before and while it builds its markup. *)
Record View := mkView {
  v_loan_score : number;
  v_loanVerdict : Badge;
  v_dtiRatio : Numeral;
  v_dtiRisk : Badge;
  v_dtiCaption : string;
  v_netFlowCaption : string;
  v_monthlyData : list MonthlyDatum;
  v_balanceData : list BalanceDatum;
  v_spendingData : list SpendingDatum;
  v_summary_paragraph : option string;
  v_issues : IssuesCard;
}.

(** What one call of the component does. *)
Inductive Outcome :=
| Rendered (view : View)
| Navigated (path : string)
| Thrown (e : Error).

(** [finalResult.analysis_summary.monthly_flows]: a property read on the
    value of [finalResult.analysis_summary], which is not the destructured
    local of the same name. *)
Definition read_monthly_flows (finalResult : GeminiResult)
  : Error + option (Record_ MonthlyFlow) :=
  match analysis_summary finalResult with
  | None =>
      inl (TypeError
             "Cannot read properties of undefined (reading 'monthly_flows')")
  | Some summary => inr (monthly_flows summary)
  end.

(** [const ResultsPage = () => ...], with [location_state] the value of
    [location.state]. *)
Definition ResultsPage (location_state : option GeminiResult) : Outcome :=
  let finalResult := default emptyResult location_state in
  match session_id finalResult with
  | None | Some "" => Navigated "/"
  | Some _ =>
      let loan_score := default 0%Q (loan_score finalResult) in
      let analysis_summary :=
        default defaultSummary (analysis_summary finalResult) in
      let data_issues := default [] (data_issues finalResult) in
      let total_deposits := default 0%Q (total_deposits analysis_summary) in
      let total_withdrawals :=
        default 0%Q (total_withdrawals analysis_summary) in
      let net_cash_flow := default 0%Q (net_cash_flow analysis_summary) in
      let debt_to_income := default 0%Q (debt_to_income analysis_summary) in
      let dtiRatio := dtiRatio debt_to_income in
      let dtiRisk := dtiRisk debt_to_income in
      let loanVerdict := getLoanVerdict loan_score in
      match read_monthly_flows finalResult with
      | inl e => Thrown e
      | inr monthly_flows =>
          let flows := default [] monthly_flows in
          let pct := default [] (spending_by_category finalResult) in
          Rendered
            {| v_loan_score := loan_score;
               v_loanVerdict := loanVerdict;
               v_dtiRatio := dtiRatio;
               v_dtiRisk := dtiRisk;
               v_dtiCaption := dtiCaption debt_to_income;
               v_netFlowCaption :=
                 netFlowCaption net_cash_flow total_deposits total_withdrawals;
               v_monthlyData := monthlyData flows;
               v_balanceData := balanceData flows;
               v_spendingData := spendingData pct total_withdrawals;
               v_summary_paragraph := summary_paragraph finalResult;
               v_issues := issuesCard data_issues |}
      end
  end.

(** Sample payloads used in the examples below. *)

(** A payload that carries a [session_id] and nothing else. *)
Definition onlySession : GeminiResult :=
  mkResult (Some "job-1") None None None None None None.

(** The double written [0.0015]. *)
Definition double_0_0015 : number :=
  (3458764513820541 # 2305843009213693952)%Q.

(** The double written [0.2806]. *)
Definition double_0_2806 : number :=
  (5054840221760645 # 18014398509481984)%Q.

(** A payload whose [analysis_summary] is an empty object. *)
Definition emptySummary : GeminiResult :=
  mkResult (Some "job-1") None (Some (mkSummary None None None None None))
    None None None None.

(** Eight recorded months, the account overdrawn in two of them. *)
Definition eightMonths : Record_ MonthlyFlow :=
  [ ("2024-01", mkFlow (Some 1500) (Some 1200) (Some 300) (Some (1 # 5)));
    ("2024-02", mkFlow (Some 1800) (Some 2400) (Some (-300)) (Some (1 # 4)));
    ("2024-03", mkFlow (Some 1600) (Some 1300) (Some 0) (Some (1 # 5)));
    ("2024-04", mkFlow (Some 2000) (Some 1500) (Some 500) (Some (1 # 5)));
    ("2024-05", mkFlow (Some 2200) (Some 3000) (Some (-300)) (Some (3 # 10)));
    ("2024-06", mkFlow (Some 1900) (Some 1450) (Some 150) (Some (1 # 5)));
    ("2024-07", mkFlow (Some 2100) (Some 1600) (Some 650) (Some (1 # 5)));
    ("2024-08", mkFlow (Some 2300) (Some 1700) (Some 1250) (Some (1 # 5))) ]%Q.

End ResultsPage.

(** ** The progress page *)

Module ProcessingPage.

Inductive StepStatus := pending | processing | completed.

#[global] Instance StepStatus_eq_dec : EqDecision StepStatus.
Proof. solve_decision. Defined.

(** [interface ProcessingStep] *)
Record ProcessingStep := mkStep {
  title : string;
  description : string;
  status : StepStatus;
}.

(** [const steps: ProcessingStep[]] *)
Definition steps : list ProcessingStep :=
  [ mkStep "Understanding Format"
           "Inferring layout structure (tabular vs freeform)" pending;
    mkStep "Transaction Extraction"
           "Pulling financial activity with LlamaParse" pending;
    mkStep "Currency Mapping"
           "Recognizing symbols, formats, and normalization" pending;
    mkStep "Data Integrity Checks"
           "Identifying gaps, misalignments, and duplications" pending;
    mkStep "Financial Analysis"
           "Detecting trends, volatility, and balance health" pending;
    mkStep "Insight Generation"
           "Mapping findings to risk and reliability metrics" pending;
    mkStep "Report Ready"
           "Summary generated — ready for review" pending ].

(** The number of stages, [steps.length]. *)
Definition N : nat := length steps.

(** The conditional of the updater:
    [idx < step ? 'completed' : idx === step ? 'processing' : 'pending']. *)
Definition stepStatus (idx : nat) (step : Z) : StepStatus :=
  if Z.of_nat idx <? step then completed
  else if Z.of_nat idx =? step then processing
  else pending.

(** The updater given to [setProcessedSteps]:
    [prev => prev.map((stepObj, idx) => ({ ...stepObj, status: ... }))]. *)
Definition updateSteps (step : Z) (prev : list ProcessingStep)
  : list ProcessingStep :=
  imap (fun idx stepObj =>
          {| title := title stepObj;
             description := description stepObj;
             status := stepStatus idx step |}) prev.

(** How many stages of a list are in a given state. *)
Definition countStatus (c : StepStatus) (l : list ProcessingStep) : nat :=
  length (filter (fun s => status s = c) l).

(** Counting over the index range, one index at a time. *)
Definition countAt (c : StepStatus) (step : Z) (n : nat) : nat :=
  length (filter (fun s => s = c) ((fun i => stepStatus i step) <$> seq 0 n)).

(** *** The polling effect

    One run of the body of [useEffect], seen from the event loop.  Every
    call of [pollProgress] first waits for the status request
    ([fetch] and [json()] of [/progress]); a call that saw the last step
    then waits for the result request ([fetch] and [json()] of
    [/results]).  Nothing is read or written between a [fetch] and its
    [json()], so each wait is one event: it either yields a value or
    throws into the [catch].  The calls share all their variables, so the
    ones that wait are counted, not told apart. *)

Record State := mkState {
  (* component state *)
  currentStep : Z;
  processedSteps : list ProcessingStep;
  finalResult : option ResultsPage.GeminiResult;
  (* calls of [navigate], latest first *)
  navigations : list string;
  (* variables of the effect *)
  isMounted : bool;
  pollInterval : bool;          (* the timer is set and not cleared *)
  stepsLength : nat;            (* [processedSteps.length] as captured *)
  (* requests on the wire *)
  progressInFlight : nat;
  resultsInFlight : nat;
  (* requests sent so far *)
  progressRequests : nat;
  resultsRequests : nat;
  (* lines written by [console.error] *)
  errorsLogged : nat;
}.

(** [useState] initial values, before the effect runs. *)
Definition initial : State :=
  {| currentStep := 0; processedSteps := steps; finalResult := None;
     navigations := [];
     isMounted := false; pollInterval := false; stepsLength := length steps;
     progressInFlight := 0; resultsInFlight := 0;
     progressRequests := 0; resultsRequests := 0; errorsLogged := 0 |}.

(** Writes of one field each. *)
Definition setCurrentStep (step : Z) (s : State) : State :=
  mkState step (processedSteps s) (finalResult s) (navigations s)
    (isMounted s) (pollInterval s) (stepsLength s)
    (progressInFlight s) (resultsInFlight s)
    (progressRequests s) (resultsRequests s) (errorsLogged s).

Definition setProcessedSteps
    (updater : list ProcessingStep -> list ProcessingStep) (s : State)
  : State :=
  mkState (currentStep s) (updater (processedSteps s)) (finalResult s)
    (navigations s) (isMounted s) (pollInterval s) (stepsLength s)
    (progressInFlight s) (resultsInFlight s)
    (progressRequests s) (resultsRequests s) (errorsLogged s).

Definition setFinalResult (r : ResultsPage.GeminiResult) (s : State) : State :=
  mkState (currentStep s) (processedSteps s) (Some r) (navigations s)
    (isMounted s) (pollInterval s) (stepsLength s)
    (progressInFlight s) (resultsInFlight s)
    (progressRequests s) (resultsRequests s) (errorsLogged s).

Definition navigate (path : string) (s : State) : State :=
  mkState (currentStep s) (processedSteps s) (finalResult s)
    (path :: navigations s) (isMounted s) (pollInterval s) (stepsLength s)
    (progressInFlight s) (resultsInFlight s)
    (progressRequests s) (resultsRequests s) (errorsLogged s).

Definition assign_isMounted (b : bool) (s : State) : State :=
  mkState (currentStep s) (processedSteps s) (finalResult s) (navigations s)
    b (pollInterval s) (stepsLength s)
    (progressInFlight s) (resultsInFlight s)
    (progressRequests s) (resultsRequests s) (errorsLogged s).

Definition assign_pollInterval (b : bool) (s : State) : State :=
  mkState (currentStep s) (processedSteps s) (finalResult s) (navigations s)
    (isMounted s) b (stepsLength s)
    (progressInFlight s) (resultsInFlight s)
    (progressRequests s) (resultsRequests s) (errorsLogged s).

Definition capture_stepsLength (s : State) : State :=
  mkState (currentStep s) (processedSteps s) (finalResult s) (navigations s)
    (isMounted s) (pollInterval s) (length (processedSteps s))
    (progressInFlight s) (resultsInFlight s)
    (progressRequests s) (resultsRequests s) (errorsLogged s).

Definition console_error (s : State) : State :=
  mkState (currentStep s) (processedSteps s) (finalResult s) (navigations s)
    (isMounted s) (pollInterval s) (stepsLength s)
    (progressInFlight s) (resultsInFlight s)
    (progressRequests s) (resultsRequests s) (S (errorsLogged s)).

(** [fetch] of [/progress/${session_id}] and of [/results/${session_id}]:
    one more request sent, one more on the wire. *)
Definition fetchProgress (s : State) : State :=
  mkState (currentStep s) (processedSteps s) (finalResult s) (navigations s)
    (isMounted s) (pollInterval s) (stepsLength s)
    (S (progressInFlight s)) (resultsInFlight s)
    (S (progressRequests s)) (resultsRequests s) (errorsLogged s).

Definition fetchResults (s : State) : State :=
  mkState (currentStep s) (processedSteps s) (finalResult s) (navigations s)
    (isMounted s) (pollInterval s) (stepsLength s)
    (progressInFlight s) (S (resultsInFlight s))
    (progressRequests s) (S (resultsRequests s)) (errorsLogged s).

(** A request leaves the wire when its answer is delivered. *)
Definition takeProgress (s : State) : State :=
  mkState (currentStep s) (processedSteps s) (finalResult s) (navigations s)
    (isMounted s) (pollInterval s) (stepsLength s)
    (pred (progressInFlight s)) (resultsInFlight s)
    (progressRequests s) (resultsRequests s) (errorsLogged s).

Definition takeResults (s : State) : State :=
  mkState (currentStep s) (processedSteps s) (finalResult s) (navigations s)
    (isMounted s) (pollInterval s) (stepsLength s)
    (progressInFlight s) (pred (resultsInFlight s))
    (progressRequests s) (resultsRequests s) (errorsLogged s).

Definition clearInterval : State -> State := assign_pollInterval false.

(** A call of [pollProgress], up to its first [await]. *)
Definition pollProgress : State -> State := fetchProgress.

(** The body of the effect for the given [session_id]:
    without one, log, [navigate('/')] and stop; otherwise set the flag and
    the timer and poll once at once. *)
Definition useEffect (session_id : string) (s : State) : State :=
  if decide (session_id = "") then navigate "/" (console_error s)
  else
    pollProgress
      (assign_pollInterval true (assign_isMounted true (capture_stepsLength s))).

(** The function returned by the effect. *)
Definition cleanup (s : State) : State :=
  clearInterval (assign_isMounted false s).

(** The [catch] block. *)
Definition catch (s : State) : State :=
  let s := console_error s in
  if negb (isMounted s) then s else clearInterval s.

(** [pollProgress] resumed with the parsed status [{ current_step: step }]. *)
Definition onProgress (step : Z) (s : State) : State :=
  if negb (isMounted s) then s
  else
    let s := setCurrentStep step s in
    let s := setProcessedSteps (updateSteps step) s in
    if Z.of_nat (stepsLength s) <=? step
    then fetchResults (clearInterval s)
    else s.

(** [pollProgress] resumed with the parsed result. *)
Definition onResults (resultsJson : ResultsPage.GeminiResult) (s : State)
  : State :=
  if negb (isMounted s) then s else setFinalResult resultsJson s.

(** What the event loop can deliver to the effect. *)
Inductive Event :=
| Tick                                        (* the interval fires *)
| ProgressOk (step : Z)                       (* a status request answers *)
| ProgressFailed                              (* ... or fails *)
| ResultsOk (resultsJson : ResultsPage.GeminiResult)
| ResultsFailed
| Unmount.                                    (* React runs the cleanup *)

(** An event can happen only if its source exists: a tick needs the timer,
    an answer needs a request on the wire. *)
Definition enabled (e : Event) (s : State) : bool :=
  match e with
  | Tick => pollInterval s
  | ProgressOk _ | ProgressFailed => bool_decide (0 < progressInFlight s)%nat
  | ResultsOk _ | ResultsFailed => bool_decide (0 < resultsInFlight s)%nat
  | Unmount => true
  end.

(** One turn of the event loop; an event that cannot happen is skipped. *)
Definition handle (s : State) (e : Event) : State :=
  if negb (enabled e s) then s
  else
    match e with
    | Tick => pollProgress s
    | ProgressOk step => onProgress step (takeProgress s)
    | ProgressFailed => catch (takeProgress s)
    | ResultsOk resultsJson => onResults resultsJson (takeResults s)
    | ResultsFailed => catch (takeResults s)
    | Unmount => cleanup s
    end.

Definition run (s : State) (events : list Event) : State :=
  foldl handle s events.

(** The page after its first render and effect. *)
Definition mount (session_id : string) : State :=
  useEffect session_id initial.

(** The effect after its cleanup, and the part of the state that the
    page and the server can see. *)
Definition tornDown (s : State) : Prop :=
  isMounted s = false /\ pollInterval s = false.

Definition sameOutside (s s' : State) : Prop :=
  currentStep s' = currentStep s
  /\ processedSteps s' = processedSteps s
  /\ finalResult s' = finalResult s
  /\ navigations s' = navigations s
  /\ progressRequests s' = progressRequests s
  /\ resultsRequests s' = resultsRequests s.

(** Events other than a status answer at or past the last of [n] steps. *)
Definition belowLast (n : nat) (e : Event) : Prop :=
  match e with
  | ProgressOk step => step < Z.of_nat n
  | _ => True
  end.


(** A status answer that the page handles as the end of the job: it is
    delivered, the page is mounted and the step is at or past the last. *)
Definition handledCompletion (s : State) (e : Event) : bool :=
  match e with
  | ProgressOk step =>
      enabled e s && isMounted s && (Z.of_nat (stepsLength s) <=? step)
  | _ => false
  end.

(** How many of them a run from [s] meets. *)
Fixpoint completionsHandled (s : State) (events : list Event) : nat :=
  match events with
  | [] => 0
  | e :: events =>
      ((if handledCompletion s e then 1 else 0)
       + completionsHandled (handle s e) events)%nat
  end.

End ProcessingPage.


(** ** The progress page: what it shows and its button *)

Module ProcessingPageView.
Import ProcessingPage.

(** [const isComplete = currentStep >= steps.length] *)
Definition isComplete (s : State) : bool :=
  Z.of_nat (length steps) <=? currentStep s.

(** The panel under the timeline:
    [currentStep > 0 && currentStep <= steps.length && (<p>...</p>)] with
    the text [processedSteps[currentStep - 1]?.description].  [None] is no
    panel; [Some None] is a panel whose text is [undefined]. *)
Definition activeDescription (s : State) : option (option string) :=
  if (0 <? currentStep s) && (currentStep s <=? Z.of_nat (length steps))
  then Some (description <$> processedSteps s !! Z.to_nat (currentStep s - 1))
  else None.

(** A call of [navigate] with its [state] option. *)
Record Navigation := mkNavigation {
  nav_to : string;
  nav_state : option ResultsPage.GeminiResult;
}.

(** The button 'View Financial Report': [disabled={!isComplete}] and
    [onClick={() => finalResult && navigate('/results', { state: finalResult })}];
    the click of a disabled button does not reach the handler. *)
Definition viewReportDisabled (s : State) : bool := negb (isComplete s).

Definition onViewReportClick (s : State) : option Navigation :=
  if viewReportDisabled s then None
  else
    match finalResult s with
    | Some r => Some (mkNavigation "/results" (Some r))
    | None => None
    end.

(** The stage list agrees with [currentStep], or nothing was stored yet. *)
Definition inStep (s : State) : Prop :=
  (currentStep s = 0 /\ processedSteps s = steps)
  \/ processedSteps s = updateSteps (currentStep s) steps.

(** The timer is set only on a mounted page; a result request was sent
    only with the timer cleared; a result is stored only after a request. *)
Definition orderly (s : State) : Prop :=
  (pollInterval s = true -> isMounted s = true)
  /\ ((0 < resultsRequests s)%nat -> pollInterval s = false)
  /\ (is_Some (finalResult s) -> (0 < resultsRequests s)%nat)
  /\ (resultsInFlight s <= resultsRequests s)%nat.

End ProcessingPageView.

(** ** The report page: colours of the pie chart *)

Module ResultsPageMarkup.
Import JS ResultsPage.

(** [const COLORS] *)
Definition COLORS : list string :=
  ["#3b82f6"; "#10b981"; "#f59e0b"; "#ef4444"].

(** The fill of a slice: [COLORS[index % COLORS.length]]. *)
Definition cellFill (index : nat) : option string :=
  COLORS !! (index mod length COLORS)%nat.

(** The dot of a legend row: [COLORS[index]]. *)
Definition legendColor (index : nat) : option string :=
  COLORS !! index.

End ResultsPageMarkup.

(** ** The progress page with a simulated job ([pages/ProcessingPage.tsx]) *)

Module SimulatedProcessingPage.
Import ProcessingPage.

(** [const steps: ProcessingStep[]] of this page. *)
Definition steps : list ProcessingStep :=
  [ mkStep "Understanding Format"
           "Inferring layout structure (tabular vs freeform)" pending;
    mkStep "Transaction Extraction"
           "Pulling financial activity with LlamaParse" pending;
    mkStep "Currency Mapping"
           "Recognizing symbols, formats, and normalization" pending;
    mkStep "Data Integrity Checks"
           "Identifying gaps, misalignments, and duplications" pending;
    mkStep "Financial Signal Analysis"
           "Detecting trends, volatility, and balance health" pending;
    mkStep "Insight Generation"
           "Mapping findings to risk and reliability metrics" pending;
    mkStep "Report Ready"
           "Summary generated — ready for review" pending ].

Record State := mkState {
  currentStep : Z;
  processedSteps : list ProcessingStep;
  interval : bool;                (* the timer is set and not cleared *)
}.

(** After the first render and [useEffect]. *)
Definition initial : State := mkState 0 steps true.

(** The callback of [setInterval]: the updater of [setCurrentStep], which
    itself updates the stage list or clears the timer.  The stage at
    [nextStep - 1] becomes the one in process. *)
Definition onInterval (s : State) : State :=
  let prev := currentStep s in
  let nextStep := prev + 1 in
  if nextStep <=? Z.of_nat (length steps) then
    mkState nextStep (updateSteps (nextStep - 1) (processedSteps s)) (interval s)
  else
    mkState prev (processedSteps s) false.

(** The cleanup of the effect. *)
Definition cleanup (s : State) : State :=
  mkState (currentStep s) (processedSteps s) false.

Inductive Event := Tick | Unmount.

(** A tick needs the timer. *)
Definition handle (s : State) (e : Event) : State :=
  match e with
  | Tick => if interval s then onInterval s else s
  | Unmount => cleanup s
  end.

Definition run (s : State) (events : list Event) : State :=
  foldl handle s events.

(** [const isComplete = currentStep >= steps.length] *)
Definition isComplete (s : State) : bool :=
  Z.of_nat (length steps) <=? currentStep s.

End SimulatedProcessingPage.

(** ** The entry page ([pages/Index.tsx]) with its upload area *)

Module IndexPage.
Import JS.

(** A [File] of the browser: its name and its MIME type. *)
Record File := mkFile {
  file_name : string;
  file_type : string;
}.

(** What a handler of the upload area does with the files it is given. *)
Inductive Upload :=
| Selected (file : File)          (* [onFileSelect(file)] *)
| Alerted (message : string)      (* [alert(...)] *)
| Nothing.

(** [handleDrop], on [e.dataTransfer.files]. *)
Definition handleDrop (files : list File) : Upload :=
  match files with
  | file :: _ =>
      if decide (file_type file = "application/pdf") then Selected file
      else Alerted "Please select a PDF file"
  | [] => Nothing
  end.

(** [handleFileChange], on [e.target.files], which may be [null]. *)
Definition handleFileChange (files : option (list File)) : Upload :=
  match files with
  | Some (file :: _) =>
      if decide (file_type file = "application/pdf") then Selected file
      else Alerted "Please select a PDF file"
  | _ => Nothing
  end.

(** [\d] *)
Definition isDigit (c : ascii) : bool :=
  (48 <=? N_of_ascii c)%N && (N_of_ascii c <=? 57)%N.

(** The longest run of digits at the front of a string, as digit values,
    and what follows it. *)
Fixpoint readDigits (s : string) : list Z * string :=
  match s with
  | String c rest =>
      if isDigit c then
        let '(ds, r) := readDigits rest in
        (Z.of_N (N_of_ascii c) - 48 :: ds, r)
      else ([], s)
  | EmptyString => ([], s)
  end.

(** An optional point. *)
Definition skipPoint (s : string) : string :=
  match s with
  | String "."%char rest => rest
  | _ => s
  end.

(** [/^\d*\.?\d*$/.test(value)] *)
Definition amountPattern_test (value : string) : bool :=
  match snd (readDigits (skipPoint (snd (readDigits value)))) with
  | EmptyString => true
  | _ => false
  end.

(** The number written by a list of digits. *)
Definition decimalValue (ds : list Z) : Z :=
  foldl (fun acc d => 10 * acc + d) 0 ds.

(** The decimal that the front of a string spells: digits, then possibly a
    point and digits; [None] when there is no digit. *)
Definition mathematicalValue (s : string) : option Q :=
  let '(int, rest) := readDigits s in
  let frac :=
    match rest with
    | String "."%char rest' => fst (readDigits rest')
    | _ => []
    end in
  match int, frac with
  | [], [] => None
  | _, _ =>
      Some (inject_Z (decimalValue int)
            + inject_Z (decimalValue frac) / inject_Z (10 ^ Z.of_nat (length frac)))%Q
  end.

(** [parseFloat] on a string that has no white space, sign, exponent or
    [Infinity] in front, as the amount field holds: the double nearest to
    the decimal that the front of the string spells, [NaN] when there is no
    digit. *)
Definition parseFloat (s : string) : Binary64.Double :=
  match mathematicalValue s with
  | Some v => Binary64.round64 v
  | None => Binary64.NaN
  end.

(** The body of a request to [/analyze]. *)
Record AnalyzeRequest := mkRequest {
  req_file : File;
  req_loan_amount : string;
}.

(** The [state] handed to [/processing]. *)
Record ProcessingState := mkProcessingState {
  ps_session_id : option string;
  ps_filename : string;
  ps_loanAmount : string;
}.

Record State := mkState {
  selectedFile : option File;
  loanAmount : string;
  (* calls of [handleStartAnalysis] that wait for their answer *)
  pending : list AnalyzeRequest;
  (* requests sent, latest first *)
  sent : list AnalyzeRequest;
  (* calls of [navigate('/processing', ...)], latest first *)
  navigations : list ProcessingState;
  (* calls of [alert] *)
  alerts : nat;
}.

(** [useState] initial values. *)
Definition initial : State := mkState None "" [] [] [] 0.

(** [handleFileSelect], called by the upload area. *)
Definition handleFileSelect (file : File) (s : State) : State :=
  mkState (Some file) (loanAmount s) (pending s) (sent s) (navigations s)
    (alerts s).

Definition alert (s : State) : State :=
  mkState (selectedFile s) (loanAmount s) (pending s) (sent s) (navigations s)
    (S (alerts s)).

Definition upload (u : Upload) (s : State) : State :=
  match u with
  | Selected file => handleFileSelect file s
  | Alerted _ => alert s
  | Nothing => s
  end.

(** [handleLoanAmountChange], on [e.target.value]. *)
Definition handleLoanAmountChange (value : string) (s : State) : State :=
  if bool_decide (value = "") || amountPattern_test value then
    mkState (selectedFile s) value (pending s) (sent s) (navigations s)
      (alerts s)
  else s.

(** [const isFormValid = selectedFile && loanAmount && parseFloat(loanAmount) > 0] *)
Definition isFormValid (s : State) : bool :=
  match selectedFile s with
  | None => false
  | Some _ =>
      negb (bool_decide (loanAmount s = ""))
      && Binary64.ltb (Binary64.Finite 0) (parseFloat (loanAmount s))
  end.

(** [handleStartAnalysis], up to its [await fetch]. *)
Definition handleStartAnalysis (s : State) : State :=
  match selectedFile s with
  | None => s
  | Some file =>
      if bool_decide (loanAmount s = "") then s
      else
        let request := mkRequest file (loanAmount s) in
        mkState (selectedFile s) (loanAmount s) (pending s ++ [request])
          (request :: sent s) (navigations s) (alerts s)
  end.

(** [handleStartAnalysis] resumed: the answer to the [i]-th waiting call.
    An answer that is [ok] is parsed and navigates with the file name and
    the amount the call was started with; any other only logs. *)
Inductive Answer :=
| AnalyzeOk (session_id : option string)
| AnalyzeNotOk
| AnalyzeFailed.

Definition onAnswer (i : nat) (a : Answer) (s : State) : State :=
  match pending s !! i with
  | None => s
  | Some request =>
      let navigations :=
        match a with
        | AnalyzeOk session_id =>
            mkProcessingState session_id (file_name (req_file request))
              (req_loan_amount request) :: navigations s
        | _ => navigations s
        end in
      mkState (selectedFile s) (loanAmount s) (delete i (pending s)) (sent s)
        navigations (alerts s)
  end.

Inductive Event :=
| Drop (files : list File)
| FileChange (files : option (list File))
| AmountChange (value : string)
| ClickStart
| Answered (i : nat) (a : Answer).

(** One turn of the event loop.  The button is [disabled={!isFormValid}]:
    a click reaches [handleStartAnalysis] only on a valid form. *)
Definition handle (s : State) (e : Event) : State :=
  match e with
  | Drop files => upload (handleDrop files) s
  | FileChange files => upload (handleFileChange files) s
  | AmountChange value => handleLoanAmountChange value s
  | ClickStart => if isFormValid s then handleStartAnalysis s else s
  | Answered i a => onAnswer i a s
  end.

Definition run (s : State) (events : list Event) : State :=
  foldl handle s events.

(** All characters are digits. *)
Fixpoint allDigits (s : string) : bool :=
  match s with
  | String c rest => isDigit c && allDigits rest
  | EmptyString => true
  end.

(** Some character is one of 1 to 9. *)
Fixpoint hasNonzeroDigit (s : string) : bool :=
  match s with
  | String c rest =>
      (isDigit c && negb (N_of_ascii c =? 48)%N) || hasNonzeroDigit rest
  | EmptyString => false
  end.

(** The string does not start with a digit. *)
Definition stopsDigits (r : string) : Prop :=
  match r with
  | String c _ => isDigit c = false
  | EmptyString => True
  end.

(** A PDF with an amount that the field accepts and that is a positive
    number. *)
Definition positiveAmount (amount : string) : Prop :=
  Binary64.ltb (Binary64.Finite 0) (parseFloat amount) = true.

(** [n] zeros. *)
Fixpoint zeros (n : nat) : string :=
  match n with
  | O => EmptyString
  | S n => String "0"%char (zeros n)
  end.

(** An amount that the field accepts and that is too small for a double:
    a 1 after 323 zeros behind the point. *)
Definition tinyAmount : string := "0." +:+ zeros 323 +:+ "1".

(** The least amount of that form that is not too small: a 1 after 322
    zeros. *)
Definition leastAmount : string := "0." +:+ zeros 322 +:+ "1".

Definition validRequest (r : AnalyzeRequest) : Prop :=
  file_type (req_file r) = "application/pdf"
  /\ req_loan_amount r <> ""
  /\ amountPattern_test (req_loan_amount r) = true
  /\ positiveAmount (req_loan_amount r).

(** A navigation carries the file name and the amount of a request. *)
Definition fromRequest (requests : list AnalyzeRequest)
    (target : ProcessingState) : Prop :=
  exists r, r ∈ requests
            /\ ps_filename target = file_name (req_file r)
            /\ ps_loanAmount target = req_loan_amount r.

(** What every state of the entry page satisfies. *)
Definition wellFormed (s : State) : Prop :=
  amountPattern_test (loanAmount s) = true
  /\ (forall file, selectedFile s = Some file ->
                   file_type file = "application/pdf")
  /\ Forall validRequest (sent s)
  /\ (forall r, r ∈ pending s -> r ∈ sent s)
  /\ Forall (fromRequest (sent s)) (navigations s)
  /\ (length (navigations s) + length (pending s) <= length (sent s))%nat.

(** The progress page that a navigation opens: its [session_id] defaults to
    the empty string. *)
Definition openProcessing (target : ProcessingState) : ProcessingPage.State :=
  ProcessingPage.mount (default "" (ps_session_id target)).

End IndexPage.

(** ** Facts about double-precision rounding *)

Module Binary64Facts.
Import JS Binary64.
Local Open Scope Q_scope.

Lemma pow2_pos k : 0 < pow2 k.
Proof. unfold pow2. apply Qpower_0_lt. reflexivity. Qed.

Lemma pow2_add a b : pow2 (a + b) == pow2 a * pow2 b.
Proof. unfold pow2. apply Qpower_plus. discriminate. Qed.

Lemma pow2_inject n : (0 <= n)%Z -> inject_Z (2 ^ n) == pow2 n.
Proof. intros Hn. unfold pow2. by rewrite Zpower_Qpower. Qed.

Lemma roundEven_near m : Qabs (inject_Z (roundEven m) - m) <= 1 # 2.
Proof.
  unfold roundEven.
  pose proof (Qfloor_le m) as Hlo. pose proof (Qlt_floor m) as Hhi.
  rewrite inject_Z_plus in Hhi. change (inject_Z 1) with 1 in Hhi.
  apply Qabs_Qle_condition.
  destruct (Qcompare (m - inject_Z (Qfloor m)) (1 # 2)) eqn:E.
  - apply Qeq_alt in E.
    destruct (Z.even (Qfloor m));
      rewrite ?inject_Z_plus; change (inject_Z 1) with 1; split; lra.
  - apply Qlt_alt in E. split; lra.
  - apply Qgt_alt in E. rewrite inject_Z_plus. change (inject_Z 1) with 1.
    split; lra.
Qed.

Lemma ilog2_le a : 0 < a -> pow2 (ilog2 a) <= a.
Proof.
  intros Ha. unfold ilog2.
  destruct (Qle_bool _ a) eqn:E; [by apply Qle_bool_iff in E|]. clear E.
  destruct a as [p q]. cbn [Qnum Qden].
  assert (Hp : (0 < p)%Z).
  { unfold Qlt in Ha. cbn in Ha. lia. }
  set (lp := Z.log2 p). set (lq := Z.log2 (Z.pos q)).
  assert (Hlp : (0 <= lp)%Z) by apply Z.log2_nonneg.
  assert (Hlq : (0 <= lq)%Z) by apply Z.log2_nonneg.
  destruct (Z.log2_spec p Hp) as [HX _].
  destruct (Z.log2_spec (Z.pos q) eq_refl) as [_ HY].
  fold lp in HX. fold lq in HY.
  set (t := pow2 (lp - lq - 1)).
  assert (Ht : t * inject_Z (2 ^ Z.succ lq) == inject_Z (2 ^ lp)).
  { rewrite !pow2_inject by lia. unfold t. rewrite <- pow2_add.
    by replace (lp - lq - 1 + Z.succ lq)%Z with lp by lia. }
  assert (Ha' : (p # q) * inject_Z (Z.pos q) == inject_Z p).
  { unfold Qeq, Qmult, inject_Z. cbn. lia. }
  rewrite Zlt_Qlt in HY. rewrite Zle_Qle in HX.
  assert (Hq : 0 < inject_Z (Z.pos q)) by (by rewrite <- (Zlt_Qlt 0)).
  pose proof (pow2_pos (lp - lq - 1)) as Htp. fold t in Htp.
  apply Qnot_lt_le. intros Hlt.
  assert (H1 : (p # q) * inject_Z (2 ^ Z.succ lq) < t * inject_Z (2 ^ Z.succ lq)).
  { apply Qmult_lt_compat_r; [lra|done]. }
  assert (H2 : (p # q) * inject_Z (Z.pos q) <= (p # q) * inject_Z (2 ^ Z.succ lq)).
  { rewrite !(Qmult_comm (p # q)). apply Qmult_le_compat_r; lra. }
  lra.
Qed.

Lemma pow2_half q : pow2 q == 2 * pow2 (q - 1).
Proof.
  replace q with (1 + (q - 1))%Z at 1 by lia. by rewrite pow2_add.
Qed.

Lemma round_near a q :
  Qabs (inject_Z (roundEven (a / pow2 q)) * pow2 q - a) <= pow2 (q - 1).
Proof.
  pose proof (pow2_pos q) as Hq. pose proof (pow2_half q) as Hh.
  set (m := a / pow2 q).
  assert (Hm : m * pow2 q == a).
  { unfold m. field. lra. }
  pose proof (roundEven_near m) as Hn.
  set (n := inject_Z (roundEven m)) in *.
  assert (E : n * pow2 q - a == (n - m) * pow2 q) by (rewrite <- Hm; ring).
  rewrite E, Qabs_Qmult, (Qabs_pos (pow2 q)) by lra.
  assert (Qabs (n - m) * pow2 q <= (1 # 2) * pow2 q)
    by (apply Qmult_le_compat_r; lra).
  lra.
Qed.

Lemma ulp_bound a :
  0 < a ->
  pow2 (Z.max (ilog2 a) (-1022) - 52 - 1) <= a * pow2 (-53) + pow2 (-1075).
Proof.
  intros Ha. pose proof (ilog2_le a Ha) as He.
  pose proof (pow2_pos (-53)) as H53. pose proof (pow2_pos (-1075)) as H1075.
  destruct (Z.max_spec (ilog2 a) (-1022)) as [[_ ->]|[_ ->]].
  - change (-1022 - 52 - 1)%Z with (-1075)%Z.
    assert (0 <= a * pow2 (-53)) by (apply Qmult_le_0_compat; lra). lra.
  - replace (ilog2 a - 52 - 1)%Z with (ilog2 a + -53)%Z by lia.
    rewrite pow2_add.
    assert (pow2 (ilog2 a) * pow2 (-53) <= a * pow2 (-53))
      by (apply Qmult_le_compat_r; lra).
    lra.
Qed.

Lemma isNegative_true x : isNegative x = true <-> x < 0.
Proof.
  unfold isNegative. rewrite negb_true_iff.
  destruct (Qle_bool 0 x) eqn:E.
  - apply Qle_bool_iff in E. split; [done|lra].
  - split; [|done]. intros _. apply Qnot_le_lt. intros H.
    apply Qle_bool_iff in H. congruence.
Qed.

Lemma isNegative_false x : isNegative x = false <-> 0 <= x.
Proof.
  pose proof (isNegative_true x) as H. destruct (isNegative x).
  - split; [done|]. intros ?. assert (x < 0) by by apply H. lra.
  - split; [|done]. intros _. apply Qnot_lt_le. intros ?.
    assert (false = true) by by apply H. done.
Qed.

(** What [round64] returns: zero for zero; otherwise a magnitude [r] within
    half a unit in the last place of the magnitude of [x], with the sign of
    [x], or an infinity of that sign when [r] reaches [2^1024]. *)
Lemma round64_cases x :
  (x == 0 /\ round64 x = Finite 0)
  \/ (~ x == 0 /\ exists r,
        Qabs (r - Qabs x) <= roundingError x
        /\ 0 <= r
        /\ (round64 x = Infinity (isNegative x) /\ pow2 1024 <= r
            \/ (exists p, round64 x = Finite p
                          /\ p == (if isNegative x then - r else r))
               /\ r < pow2 1024)).
Proof.
  unfold round64. cbv zeta.
  pose proof (Qred_correct x) as Hx.
  destruct (Qeq_bool (Qred x) 0) eqn:E0.
  { apply Qeq_bool_iff in E0. left. split; [by rewrite <- Hx|done]. }
  right. assert (Hn : ~ x == 0).
  { intros H. rewrite <- Hx in H. apply Qeq_bool_iff in H. congruence. }
  split; [done|].
  set (a := Qabs (Qred x)).
  assert (Ha : a == Qabs x) by (unfold a; by rewrite Hx).
  assert (Hpos : 0 < a).
  { rewrite Ha. destruct (Qlt_le_dec 0 (Qabs x)) as [|Hle]; [done|].
    exfalso. apply Hn. apply Qabs_Qle_condition in Hle. lra. }
  set (q := (Z.max (ilog2 a) (-1022) - 52)%Z).
  set (r := inject_Z (roundEven (a / pow2 q)) * pow2 q).
  assert (Hs : isNegative (Qred x) = isNegative x).
  { destruct (isNegative (Qred x)) eqn:E1, (isNegative x) eqn:E2; try done.
    - apply isNegative_true in E1. apply isNegative_false in E2. lra.
    - apply isNegative_false in E1. apply isNegative_true in E2. lra. }
  exists r. split; [|split].
  - unfold roundingError. rewrite <- Ha.
    eapply Qle_trans; [apply round_near|]. by apply ulp_bound.
  - unfold r. apply Qmult_le_0_compat; [|pose proof (pow2_pos q); lra].
    rewrite <- (Zle_Qle 0). unfold roundEven.
    assert (0 <= Qfloor (a / pow2 q))%Z.
    { change 0%Z with (Qfloor 0). apply Qfloor_resp_le.
      apply Qle_shift_div_l; [apply pow2_pos|lra]. }
    destruct (Qcompare _ _); [destruct (Z.even _)|..]; lia.
  - rewrite Hs. destruct (Qle_bool (pow2 1024) r) eqn:E.
    + left. by apply Qle_bool_iff in E.
    + right. split.
      * eexists. split; [done|]. apply Qred_correct.
      * apply Qnot_le_lt. intros H. apply Qle_bool_iff in H. congruence.
Qed.

Lemma round64_error x p :
  round64 x = Finite p -> Qabs (p - x) <= roundingError x.
Proof.
  intros H. destruct (round64_cases x) as [[Hx E]|[Hx (r & Hr & _ & Hc)]].
  - rewrite E in H. injection H as <-. unfold roundingError.
    pose proof (pow2_pos (-53)). pose proof (pow2_pos (-1075)).
    rewrite Hx. change (Qabs (0 - 0)) with 0. change (Qabs 0) with 0. lra.
  - destruct Hc as [[E _]|[(p' & E & Hp) _]]; [congruence|].
    rewrite E in H. injection H as <-.
    destruct (isNegative x) eqn:Es.
    + apply isNegative_true in Es.
      assert (E1 : p' - x == - (r - Qabs x))
        by (rewrite Hp, (Qabs_neg x) by lra; ring).
      rewrite E1, Qabs_opp. exact Hr.
    + apply isNegative_false in Es.
      assert (E1 : p' - x == r - Qabs x)
        by (rewrite Hp, (Qabs_pos x) by lra; ring).
      rewrite E1. exact Hr.
Qed.

Lemma round64_Qeq x y : x == y -> round64 x = round64 y.
Proof. intros H. unfold round64. by rewrite (Qred_complete x y H). Qed.

Lemma round64_zero x : x == 0 -> round64 x = Finite 0.
Proof. intros H. by rewrite (round64_Qeq x 0 H). Qed.

(** The sign of the result is the sign of the argument. *)
Lemma round64_sign x :
  match round64 x with
  | Finite p => (0 <= x -> 0 <= p) /\ (x <= 0 -> p <= 0)
  | Infinity s => s = isNegative x /\ ~ x == 0
  | NaN => False
  end.
Proof.
  destruct (round64_cases x) as [[Hx E]|[Hx (r & _ & Hr & Hc)]].
  - rewrite E. split; lra.
  - destruct Hc as [[E _]|[(p & E & Hp) _]]; rewrite E; [done|].
    destruct (isNegative x) eqn:Es.
    + apply isNegative_true in Es. split; lra.
    + apply isNegative_false in Es. split; lra.
Qed.

Lemma pow2_53 : pow2 (-53) == 1 # 9007199254740992.
Proof. reflexivity. Qed.

Lemma pow2_1075_small : pow2 (-1075) <= 1 # 1000000.
Proof. apply Qle_bool_iff. by vm_compute. Qed.

Lemma pow2_1023_large : 10000000000000000000000 <= pow2 1023.
Proof. apply Qle_bool_iff. by vm_compute. Qed.

(** The double of [x] is within [|x| / 2^53 + 10^-6] of [x]. *)
Lemma round64_near x q :
  round64 x = Finite q ->
  x - (Qabs x * (1 # 9007199254740992) + (1 # 1000000)) <= q
  /\ q <= x + (Qabs x * (1 # 9007199254740992) + (1 # 1000000)).
Proof.
  intros H. apply round64_error in H. unfold roundingError in H.
  rewrite pow2_53 in H. pose proof pow2_1075_small.
  apply Qabs_Qle_condition in H. split; lra.
Qed.

(** No overflow below [2^1023]. *)
Lemma round64_finite x :
  Qabs x < pow2 1023 -> exists p, round64 x = Finite p.
Proof.
  intros Hx. destruct (round64_cases x) as [[_ E]|[_ (r & Hr & _ & Hc)]];
    [by eexists|].
  destruct Hc as [[_ Hbig]|[(p & E & _) _]]; [|by eexists].
  exfalso. unfold roundingError in Hr. rewrite pow2_53 in Hr.
  pose proof pow2_1075_small. pose proof pow2_1023_large.
  pose proof (pow2_half 1024) as Hh. change (1024 - 1)%Z with 1023%Z in Hh.
  apply Qabs_Qle_condition in Hr. pose proof (Qabs_nonneg x).
  lra.
Qed.

(** A positive number that is not below the least double rounds to a
    positive double. *)
Lemma round64_pos x :
  pow2 (-1074) <= x -> ltb (Finite 0) (round64 x) = true.
Proof.
  intros Hx. pose proof (pow2_pos (-1074)) as H0.
  pose proof (pow2_half (-1074)) as Hh.
  change (-1074 - 1)%Z with (-1075)%Z in Hh.
  pose proof (round64_sign x) as Hs.
  destruct (round64 x) as [p|s|] eqn:E; [| |done]; cbn.
  - apply round64_error in E. unfold roundingError in E.
    rewrite pow2_53, (Qabs_pos x) in E by lra.
    apply Qabs_Qle_condition in E.
    apply negb_true_iff. destruct (Qle_bool p 0) eqn:Ep; [|done].
    apply Qle_bool_iff in Ep. lra.
  - destruct Hs as [-> _]. apply negb_true_iff. apply isNegative_false. lra.
Qed.

(** Only a positive number rounds to a positive double. *)
Lemma round64_pos_inv x : ltb (Finite 0) (round64 x) = true -> 0 < x.
Proof.
  pose proof (round64_sign x) as Hs.
  destruct (round64 x) as [p|s|]; [| |done]; cbn.
  - intros H. apply negb_true_iff in H. apply Qnot_le_lt. intros Hx.
    assert (Qle_bool p 0 = true) by (apply Qle_bool_iff; by apply Hs).
    congruence.
  - destruct Hs as [-> Hn]. intros H. apply negb_true_iff in H.
    apply isNegative_false in H. destruct (Qlt_le_dec 0 x); [done|].
    exfalso. apply Hn. lra.
Qed.
End Binary64Facts.

(** ** Facts about the report page *)

Module ResultsPageFacts.
Import JS Binary64 ResultsPage Binary64Facts.

Lemma le_true x y : le x y = true <-> (x <= y)%Q.
Proof. apply Qle_bool_iff. Qed.

Lemma le_false x y : le x y = false <-> (y < x)%Q.
Proof.
  unfold le. split.
  - intros H. apply Qnot_le_lt. rewrite <- Qle_bool_iff. congruence.
  - intros H. apply not_true_is_false. rewrite Qle_bool_iff.
    by apply Qlt_not_le.
Qed.

Lemma ge_true x y : ge x y = true <-> (y <= x)%Q.
Proof. apply Qle_bool_iff. Qed.

Lemma ge_false x y : ge x y = false <-> (x < y)%Q.
Proof. apply le_false. Qed.

Lemma strictEq_true x y : strictEq x y = true <-> x == y.
Proof. apply Qeq_bool_iff. Qed.

(** [Math.round x] is the integer [z] with [x - 1/2 < z <= x + 1/2]. *)
Lemma Math_round_spec x :
  exists z : Z,
    JS.Math_round x = inject_Z z
    /\ (x - (1 # 2) < inject_Z z)%Q /\ (inject_Z z <= x + (1 # 2))%Q.
Proof.
  exists (Qfloor (x + (1 # 2))%Q). split; [reflexivity|].
  pose proof (Qfloor_le (x + (1 # 2))) as Hle.
  pose proof (Qlt_floor (x + (1 # 2))) as Hlt.
  rewrite inject_Z_plus in Hlt. change (inject_Z 1) with 1%Q in Hlt.
  set (n := inject_Z (Qfloor _)) in *. split; lra.
Qed.

(** The tenths chosen by [toFixed(1)] for a magnitude [a]. *)
Lemma tenths_nearest (a : Q) :
  let n := inject_Z (Qfloor (a * 10 + (1 # 2))%Q) in
  (a - (1 # 20) < n * (1 # 10))%Q /\ (n * (1 # 10) <= a + (1 # 20))%Q.
Proof.
  intros n.
  pose proof (Qfloor_le (a * 10 + (1 # 2))) as Hle.
  pose proof (Qlt_floor (a * 10 + (1 # 2))) as Hlt.
  rewrite inject_Z_plus in Hlt. change (inject_Z 1) with 1%Q in Hlt.
  fold n in Hle, Hlt. split; lra.
Qed.

Lemma tenths_nonneg x : 0 <= tenths (toFixed1 x).
Proof.
  unfold toFixed1, tenths. change 0 with (Qfloor 0%Q). apply Qfloor_resp_le.
  pose proof (Qabs_nonneg x). lra.
Qed.

(** The numeral of [x.toFixed(1)] denotes a multiple of one tenth that is
    within one twentieth of [x]. *)
Lemma toFixed1_nearest x :
  let p := JS.parseFloat (toFixed1 x) in
  (exists n : Z, p == inject_Z n * (1 # 10))
  /\ (x - (1 # 20) <= p)%Q /\ (p <= x + (1 # 20))%Q.
Proof.
  intros p. subst p. unfold JS.parseFloat, toFixed1, negative, tenths.
  unfold Qdiv. change (/ 10)%Q with (1 # 10)%Q.
  destruct (Qle_bool 0 x) eqn:E; cbn [negb].
  - apply Qle_bool_iff in E.
    rewrite (Qfloor_comp _ (x * 10 + (1 # 2))%Q)
      by (rewrite (Qabs_pos x E); reflexivity).
    destruct (tenths_nearest x) as [H1 H2].
    set (n := Qfloor _) in *. split; [exists n; lra|]. split; lra.
  - apply le_false in E.
    rewrite (Qfloor_comp _ (- x * 10 + (1 # 2))%Q)
      by (rewrite (Qabs_neg x) by lra; reflexivity).
    destruct (tenths_nearest (- x)) as [H1 H2].
    set (n := Qfloor _) in *. split.
    + exists (- n). rewrite inject_Z_opp. lra.
    + split; lra.
Qed.

(** The tenths of [x.toFixed(1)]: the integer nearest to ten times the
    magnitude of [x], the larger one on a tie. *)
Lemma tenths_spec x :
  let n := tenths (toFixed1 x) in
  0 <= n
  /\ (Qabs x * 10 - (1 # 2) < inject_Z n)%Q
  /\ (inject_Z n <= Qabs x * 10 + (1 # 2))%Q.
Proof.
  intros n. split; [apply tenths_nonneg|]. subst n. unfold toFixed1, tenths.
  pose proof (Qfloor_le (Qabs x * 10 + (1 # 2))) as Hle.
  pose proof (Qlt_floor (Qabs x * 10 + (1 # 2))) as Hlt.
  rewrite inject_Z_plus in Hlt. change (inject_Z 1) with 1%Q in Hlt.
  split; lra.
Qed.

(** Below [10^21] [toFixed(1)] prints positional digits, from there on the
    number itself. *)
Lemma toFixed_digits (p : Q) :
  (Qabs p < inject_Z (10 ^ 21))%Q ->
  toFixed p = Digits (toFixed1 p).
Proof.
  intros H. unfold toFixed.
  destruct (Qle_bool _ _) eqn:E; [|done].
  apply Qle_bool_iff in E. lra.
Qed.

Lemma toFixed_exponential (p : Q) :
  (inject_Z (10 ^ 21) <= Qabs p)%Q ->
  toFixed p = Exponential p.
Proof.
  intros H. unfold toFixed. apply Qle_bool_iff in H. by rewrite H.
Qed.

(** What is printed below [10^21]: a sign for a negative number, the
    integer part, a point and one digit, of the nearest tenth [n / 10]. *)
Lemma toFixed_positional (p : Q) :
  (Qabs p < inject_Z (10 ^ 21))%Q ->
  exists n : Z,
    toFixed p = Digits (mkFixed1 (isNegative p) n)
    /\ print (toFixed p)
       = (if isNegative p then "-" else "")
         +:+ pretty (n / 10) +:+ "." +:+ pretty (n mod 10)
    /\ 0 <= n
    /\ (Qabs p * 10 - (1 # 2) < inject_Z n)%Q
    /\ (inject_Z n <= Qabs p * 10 + (1 # 2))%Q
    /\ parseFloat (toFixed p)
       = round64 ((if isNegative p then -1 else 1) * (inject_Z n / 10))%Q.
Proof.
  intros H. exists (tenths (toFixed1 p)). rewrite (toFixed_digits p H).
  destruct (tenths_spec p) as (H0 & H1 & H2).
  split; [reflexivity|]. split; [reflexivity|]. split; [exact H0|].
  split; [exact H1|]. split; [exact H2|]. reflexivity.
Qed.

(** A product or quotient of finite doubles is a double or an infinity. *)
Lemma mul_finite (x y : Q) : mul x y <> NaN.
Proof.
  cbn. pose proof (round64_sign (x * y)) as H.
  by destruct (round64 (x * y)).
Qed.

(** The page prints 0.1 for the double written [0.0015], whose product with
    100 is a double below 0.15; a sign is kept in front of a zero. *)
Lemma dtiRatio_example :
  round64 (15 # 10000)%Q = Finite double_0_0015
  /\ print (dtiRatio double_0_0015) = "0.1"
  /\ digits (toFixed1 (- (4 # 100))%Q) = "-0.0"
  /\ digits (toFixed1 (5 # 100)%Q) = "0.1".
Proof. repeat split; by vm_compute. Qed.

(** *** Buckets *)

Lemma getDtiRisk_low (ratio : number) :
  label (getDtiRisk ratio) = "Low risk" <-> (ratio <= 28)%Q.
Proof.
  unfold getDtiRisk. rewrite <- le_true.
  change (leb ratio 28%Q) with (le ratio 28%Q).
  change (leb ratio 36%Q) with (le ratio 36%Q).
  destruct (le ratio 28%Q), (le ratio 36%Q); simpl; split; congruence.
Qed.

Lemma getDtiRisk_moderate (ratio : number) :
  label (getDtiRisk ratio) = "Moderate risk" <-> (28 < ratio)%Q /\ (ratio <= 36)%Q.
Proof.
  unfold getDtiRisk. rewrite <- le_true, <- le_false.
  change (leb ratio 28%Q) with (le ratio 28%Q).
  change (leb ratio 36%Q) with (le ratio 36%Q).
  destruct (le ratio 28%Q) eqn:E1, (le ratio 36%Q) eqn:E2; simpl;
    split; try (intros [? ?]); try congruence; try done.
Qed.

Lemma getDtiRisk_high (ratio : number) :
  label (getDtiRisk ratio) = "High risk" <-> (36 < ratio)%Q.
Proof.
  unfold getDtiRisk. rewrite <- le_false.
  change (leb ratio 28%Q) with (le ratio 28%Q).
  change (leb ratio 36%Q) with (le ratio 36%Q).
  destruct (le ratio 28%Q) eqn:E1, (le ratio 36%Q) eqn:E2; simpl;
    split; try congruence.
  apply le_true in E1. apply le_false in E2. lra.
Qed.

Lemma getLoanVerdict_approved score :
  label (getLoanVerdict score) = "Likely Approved" <-> (80 <= score)%Q.
Proof.
  unfold getLoanVerdict. rewrite <- ge_true.
  destruct (ge score 80%Q), (ge score 60%Q); simpl; split; congruence.
Qed.

Lemma getLoanVerdict_review score :
  label (getLoanVerdict score) = "Requires Review"
  <-> (60 <= score)%Q /\ (score < 80)%Q.
Proof.
  unfold getLoanVerdict. rewrite <- ge_true, <- ge_false.
  destruct (ge score 80%Q) eqn:E1, (ge score 60%Q) eqn:E2; simpl;
    split; try (intros [? ?]); try congruence; try done.
Qed.

Lemma getLoanVerdict_high score :
  label (getLoanVerdict score) = "High Risk" <-> (score < 60)%Q.
Proof.
  unfold getLoanVerdict. rewrite <- ge_false.
  destruct (ge score 80%Q) eqn:E1, (ge score 60%Q) eqn:E2; simpl;
    split; try congruence.
  apply ge_true in E1. apply ge_false in E2. lra.
Qed.

(** *** Series *)

Lemma slice_negative {A} (k : nat) (l : list A) :
  (0 < k)%nat -> slice (- Z.of_nat k) l = drop (length l - k) l.
Proof.
  intros Hk. unfold slice.
  destruct (Z.ltb_spec (- Z.of_nat k) 0); [|lia].
  f_equal. lia.
Qed.

Lemma last6_drop flows : last6 flows = drop (length flows - 6) flows.
Proof. apply (slice_negative 6). lia. Qed.

Lemma last6_suffix flows :
  take (length flows - 6) flows ++ last6 flows = flows.
Proof. rewrite last6_drop. apply take_drop. Qed.

Lemma length_last6 flows : length (last6 flows) = Nat.min 6 (length flows).
Proof. rewrite last6_drop, length_drop. lia. Qed.

Lemma lookup_last6 flows i :
  last6 flows !! i = flows !! (length flows - 6 + i)%nat.
Proof. rewrite last6_drop. apply lookup_drop. Qed.

Lemma monthlyData_lookup flows i :
  monthlyData flows !! i =
  (fun '(month, f) => mkMonthly month (deposits f) (withdrawals f))
    <$> last6 flows !! i.
Proof. unfold monthlyData. apply list_lookup_fmap. Qed.

Lemma balanceData_lookup flows i :
  balanceData flows !! i =
  (fun '(month, f) => mkBalance month (end_balance f)) <$> last6 flows !! i.
Proof. unfold balanceData. apply list_lookup_fmap. Qed.

(** *** The page as a whole *)

(** The page renders exactly when the payload has a non-empty [session_id]
    and an [analysis_summary], and then the view is made of the derived
    values of the fields, absent ones replaced by their defaults. *)
Lemma ResultsPage_Rendered payload view :
  ResultsPage (Some payload) = Rendered view ->
  exists summary,
    analysis_summary payload = Some summary
    /\ let total_deposits := default 0%Q (total_deposits summary) in
       let total_withdrawals := default 0%Q (total_withdrawals summary) in
       let net_cash_flow := default 0%Q (net_cash_flow summary) in
       let debt_to_income := default 0%Q (debt_to_income summary) in
       view =
       {| v_loan_score := default 0%Q (loan_score payload);
          v_loanVerdict := getLoanVerdict (default 0%Q (loan_score payload));
          v_dtiRatio := dtiRatio debt_to_income;
          v_dtiRisk := dtiRisk debt_to_income;
          v_dtiCaption := dtiCaption debt_to_income;
          v_netFlowCaption :=
            netFlowCaption net_cash_flow total_deposits total_withdrawals;
          v_monthlyData := monthlyData (default [] (monthly_flows summary));
          v_balanceData := balanceData (default [] (monthly_flows summary));
          v_spendingData :=
            spendingData (default [] (spending_by_category payload))
              total_withdrawals;
          v_summary_paragraph := summary_paragraph payload;
          v_issues := issuesCard (default [] (data_issues payload)) |}.
Proof.
  unfold ResultsPage, read_monthly_flows. simpl.
  destruct (session_id payload) as [[|c sid]|]; try discriminate.
  destruct (analysis_summary payload) as [summary|]; try discriminate.
  intros [= <-]. by exists summary.
Qed.

Lemma ResultsPage_with_summary payload c sid summary :
  session_id payload = Some (String c sid) ->
  analysis_summary payload = Some summary ->
  exists view, ResultsPage (Some payload) = Rendered view.
Proof.
  intros Hs Ha. unfold ResultsPage, read_monthly_flows. simpl.
  rewrite Hs, Ha. eauto.
Qed.

Lemma ResultsPage_without_summary payload c sid :
  session_id payload = Some (String c sid) ->
  analysis_summary payload = None ->
  ResultsPage (Some payload) =
  Thrown (TypeError
            "Cannot read properties of undefined (reading 'monthly_flows')").
Proof.
  intros Hs Ha. unfold ResultsPage, read_monthly_flows. simpl.
  by rewrite Hs, Ha.
Qed.

(** The denominator of the net-flow percentage is the double sum, or 1
    when that is zero; it is never zero. *)
Lemma add_finite (x y : Q) :
  match add x y with
  | Finite p => p == 0 -> p = 0%Q
  | Infinity _ => True
  | NaN => False
  end.
Proof.
  cbn. unfold round64. cbv zeta.
  destruct (Qeq_bool _ 0); [done|].
  destruct (Qle_bool _ _); [done|].
  intros H. etrans; [|exact (Qred_complete _ 0%Q H)].
  symmetry. apply Qred_complete, Qred_correct.
Qed.

Lemma netFlowDenominator_nonzero (total_deposits total_withdrawals : number) :
  netFlowDenominator total_deposits total_withdrawals <> NaN
  /\ forall z,
       netFlowDenominator total_deposits total_withdrawals = Finite z ->
       ~ z == 0.
Proof.
  unfold netFlowDenominator, orElse.
  pose proof (add_finite total_deposits total_withdrawals) as H.
  destruct (add _ _) as [p|s|]; [|done..].
  destruct (Qeq_bool p 0) eqn:E.
  - split; [done|]. by intros z [= <-].
  - split; [done|]. intros z [= <-] Hz. apply Qeq_bool_iff in Hz. congruence.
Qed.

Lemma netFlowDenominator_zero_sum (total_deposits total_withdrawals : number) :
  total_deposits + total_withdrawals == 0 ->
  netFlowDenominator total_deposits total_withdrawals = Finite 1.
Proof.
  intros H. unfold netFlowDenominator. cbn [add].
  by rewrite (round64_zero _ H).
Qed.

Lemma netFlowDenominator_sum (total_deposits total_withdrawals : number) :
  add total_deposits total_withdrawals <> Finite 0 ->
  netFlowDenominator total_deposits total_withdrawals
  = add total_deposits total_withdrawals.
Proof.
  intros H. unfold netFlowDenominator, orElse.
  pose proof (add_finite total_deposits total_withdrawals) as Hp.
  destruct (add _ _) as [p|s|]; [|done..].
  destruct (Qeq_bool p 0) eqn:E; [|done].
  apply Qeq_bool_iff in E. rewrite (Hp E) in H. done.
Qed.

(** The net-flow percentage is a number. *)
Lemma netFlowPercent_finite (net_cash_flow total_deposits total_withdrawals : number) :
  mul (div net_cash_flow (netFlowDenominator total_deposits total_withdrawals))
      100%Q <> NaN.
Proof.
  destruct (netFlowDenominator_nonzero total_deposits total_withdrawals)
    as [Hnan Hnz].
  destruct (netFlowDenominator _ _) as [z|t|]; [| |done].
  - cbn [div]. destruct (Qeq_bool z 0) eqn:E.
    { apply Qeq_bool_iff in E. by destruct (Hnz z eq_refl). }
    pose proof (round64_sign (net_cash_flow / z)) as H.
    destruct (round64 (net_cash_flow / z)) as [q|s|]; [apply mul_finite|done|done].
  - apply mul_finite.
Qed.

Lemma netFlowCaption_marker
    (net_cash_flow total_deposits total_withdrawals : number) :
  netFlowCaption net_cash_flow total_deposits total_withdrawals = "––"
  <-> net_cash_flow == 0.
Proof.
  unfold netFlowCaption. rewrite <- strictEq_true.
  destruct (strictEq net_cash_flow 0%Q); split; done.
Qed.

Lemma netFlowCaption_percent
    (net_cash_flow total_deposits total_withdrawals : number) :
  ~ net_cash_flow == 0 ->
  netFlowCaption net_cash_flow total_deposits total_withdrawals
  = " " +:+ print
              (netFlowPercent net_cash_flow total_deposits total_withdrawals)
    +:+ "% of total activity".
Proof.
  intros H. unfold netFlowCaption.
  destruct (strictEq net_cash_flow 0%Q) eqn:E; [|done].
  apply strictEq_true in E. contradiction.
Qed.

End ResultsPageFacts.

(** ** Facts about the progress page *)

Module ProcessingPageFacts.
Import ProcessingPage.

Lemma N_is_7 : N = 7%nat.
Proof. reflexivity. Qed.

Lemma length_updateSteps step prev :
  length (updateSteps step prev) = length prev.
Proof. apply length_imap. Qed.

Lemma lookup_updateSteps step prev i :
  updateSteps step prev !! i =
  (fun s => mkStep (title s) (description s) (stepStatus i step)) <$> prev !! i.
Proof. unfold updateSteps. by rewrite list_lookup_imap. Qed.

(** The states after an update are a function of the length alone. *)
Lemma status_updateSteps step prev :
  status <$> updateSteps step prev =
  (fun i => stepStatus i step) <$> seq 0 (length prev).
Proof.
  apply list_eq. intros i.
  rewrite !list_lookup_fmap, lookup_updateSteps.
  destruct (prev !! i) as [s|] eqn:E; simpl.
  - apply lookup_lt_Some in E. by rewrite lookup_seq_lt.
  - apply lookup_ge_None in E. by rewrite lookup_seq_ge.
Qed.

Lemma countStatus_fmap c l :
  countStatus c l = length (filter (fun s => s = c) (status <$> l)).
Proof.
  unfold countStatus. induction l as [|x l IH]; [done|].
  rewrite fmap_cons, !filter_cons. simpl.
  destruct (decide (status x = c)); simpl; by rewrite IH.
Qed.

Lemma countAt_S c step n :
  countAt c step (S n) =
  (countAt c step n + (if decide (stepStatus n step = c) then 1 else 0))%nat.
Proof.
  unfold countAt. rewrite seq_S, fmap_app, filter_app, length_app. simpl.
  rewrite filter_cons, filter_nil. by destruct (decide _).
Qed.

Lemma stepStatus_completed i step :
  stepStatus i step = completed <-> Z.of_nat i < step.
Proof.
  unfold stepStatus.
  destruct (Z.ltb_spec (Z.of_nat i) step), (Z.eqb_spec (Z.of_nat i) step);
    split; (congruence || lia).
Qed.

Lemma stepStatus_processing i step :
  stepStatus i step = processing <-> Z.of_nat i = step.
Proof.
  unfold stepStatus.
  destruct (Z.ltb_spec (Z.of_nat i) step), (Z.eqb_spec (Z.of_nat i) step);
    split; (congruence || lia).
Qed.

Lemma stepStatus_pending i step :
  stepStatus i step = pending <-> step < Z.of_nat i.
Proof.
  unfold stepStatus.
  destruct (Z.ltb_spec (Z.of_nat i) step), (Z.eqb_spec (Z.of_nat i) step);
    split; (congruence || lia).
Qed.

Ltac count_step :=
  match goal with
  | |- context [decide (stepStatus ?n ?k = completed)] =>
      destruct (decide (stepStatus n k = completed)) as [E|E];
      rewrite stepStatus_completed in E
  | |- context [decide (stepStatus ?n ?k = processing)] =>
      destruct (decide (stepStatus n k = processing)) as [E|E];
      rewrite stepStatus_processing in E
  | |- context [decide (stepStatus ?n ?k = pending)] =>
      destruct (decide (stepStatus n k = pending)) as [E|E];
      rewrite stepStatus_pending in E
  end.

Lemma countAt_completed step n :
  0 <= step -> countAt completed step n = Nat.min n (Z.to_nat step).
Proof.
  intros Hs. induction n as [|n IH]; [done|].
  rewrite countAt_S, IH. count_step; lia.
Qed.

Lemma countAt_processing step n :
  0 <= step ->
  countAt processing step n = if decide (step < Z.of_nat n) then 1%nat else 0%nat.
Proof.
  intros Hs. induction n as [|n IH].
  - destruct (decide _); [lia | done].
  - rewrite countAt_S, IH. count_step; repeat destruct (decide _); lia.
Qed.

Lemma countAt_pending step n :
  0 <= step -> countAt pending step n = (n - S (Z.to_nat step))%nat.
Proof.
  intros Hs. induction n as [|n IH]; [done|].
  rewrite countAt_S, IH. count_step; lia.
Qed.

Lemma countStatus_updateSteps c step prev :
  countStatus c (updateSteps step prev) = countAt c step (length prev).
Proof. by rewrite countStatus_fmap, status_updateSteps. Qed.

(** *** The event loop *)

Lemma run_app s evs1 evs2 : run s (evs1 ++ evs2) = run (run s evs1) evs2.
Proof. apply foldl_app. Qed.

Lemma run_cons s e evs : run s (e :: evs) = run (handle s e) evs.
Proof. reflexivity. Qed.

Ltac unfold_handlers :=
  unfold handle, enabled, onProgress, onResults, catch, cleanup,
    pollProgress, clearInterval, fetchProgress, fetchResults, takeProgress,
    takeResults, setCurrentStep, setProcessedSteps, setFinalResult,
    console_error, assign_isMounted, assign_pollInterval in *;
  simpl in *.

Ltac split_handlers :=
  repeat match goal with
    | |- context [negb ?b] => destruct b eqn:?; simpl in *
    | |- context [bool_decide ?P] => destruct (bool_decide P) eqn:?; simpl in *
    | |- context [if (?a <=? ?b) then _ else _] =>
        destruct (Z.leb_spec a b); simpl in *
    end.

(** The length captured by the effect is not touched by any event. *)
Lemma stepsLength_handle s e : stepsLength (handle s e) = stepsLength s.
Proof. destruct e; unfold_handlers; split_handlers; reflexivity. Qed.

Lemma stepsLength_run s evs : stepsLength (run s evs) = stepsLength s.
Proof.
  revert s; induction evs as [|e evs IH]; intros s; [done|].
  by rewrite run_cons, IH, stepsLength_handle.
Qed.

(** The stage list keeps its length. *)
Lemma length_processedSteps_handle s e :
  length (processedSteps (handle s e)) = length (processedSteps s).
Proof.
  destruct e; unfold_handlers; split_handlers;
    rewrite ?length_updateSteps; reflexivity.
Qed.

Lemma length_processedSteps_run s evs :
  length (processedSteps (run s evs)) = length (processedSteps s).
Proof.
  revert s; induction evs as [|e evs IH]; intros s; [done|].
  by rewrite run_cons, IH, length_processedSteps_handle.
Qed.

(** No event sets the flag again. *)
Lemma isMounted_handle s e :
  isMounted (handle s e) = true -> isMounted s = true.
Proof. destruct e; unfold_handlers; split_handlers; congruence. Qed.

Lemma isMounted_run s evs :
  isMounted (run s evs) = true -> isMounted s = true.
Proof.
  revert s; induction evs as [|e evs IH]; intros s; [done|].
  rewrite run_cons. intros H. eapply isMounted_handle, IH, H.
Qed.

Lemma sameOutside_refl s : sameOutside s s.
Proof. by repeat split. Qed.

Lemma sameOutside_trans s1 s2 s3 :
  sameOutside s1 s2 -> sameOutside s2 s3 -> sameOutside s1 s3.
Proof. unfold sameOutside. intuition congruence. Qed.

Lemma cleanup_tornDown s : tornDown (handle s Unmount) /\ sameOutside s (handle s Unmount).
Proof. by repeat split. Qed.

Lemma tornDown_handle s e :
  tornDown s -> tornDown (handle s e) /\ sameOutside s (handle s e).
Proof.
  intros [Hm Ht].
  destruct e; unfold_handlers; rewrite ?Hm, ?Ht; simpl;
    split_handlers; rewrite ?Hm; simpl; by repeat split.
Qed.

Lemma tornDown_run s evs :
  tornDown s -> tornDown (run s evs) /\ sameOutside s (run s evs).
Proof.
  revert s; induction evs as [|e evs IH]; intros s H.
  - split; [done | apply sameOutside_refl].
  - rewrite run_cons.
    destruct (tornDown_handle s e H) as [H1 H2].
    destruct (IH _ H1) as [H3 H4].
    split; [done | by eapply sameOutside_trans].
Qed.

(** With the timer cleared: no status request is sent any more, and a
    result request is sent only by using up a status request on the wire. *)
Lemma timerOff_handle s e :
  pollInterval s = false ->
  pollInterval (handle s e) = false
  /\ progressRequests (handle s e) = progressRequests s
  /\ (resultsRequests s <= resultsRequests (handle s e))%nat
  /\ (resultsRequests (handle s e) + progressInFlight (handle s e)
       <= resultsRequests s + progressInFlight s)%nat.
Proof.
  intros Ht.
  destruct e; unfold_handlers; rewrite ?Ht; simpl;
    split_handlers; rewrite ?Ht; simpl;
    repeat match goal with
      | H : bool_decide _ = true |- _ => apply bool_decide_eq_true in H
      end;
    repeat split; lia.
Qed.

Lemma timerOff_run s evs :
  pollInterval s = false ->
  pollInterval (run s evs) = false
  /\ progressRequests (run s evs) = progressRequests s
  /\ (resultsRequests s <= resultsRequests (run s evs))%nat
  /\ (resultsRequests (run s evs) + progressInFlight (run s evs)
       <= resultsRequests s + progressInFlight s)%nat.
Proof.
  revert s; induction evs as [|e evs IH]; intros s Ht.
  - repeat split; (done || lia).
  - rewrite run_cons.
    destruct (timerOff_handle s e Ht) as (H1 & H2 & H3 & H4).
    destruct (IH _ H1) as (H5 & H6 & H7 & H8).
    repeat split; (done || lia).
Qed.

Lemma belowLast_handle s e :
  belowLast (stepsLength s) e ->
  resultsRequests (handle s e) = resultsRequests s.
Proof.
  destruct e; unfold_handlers; intros Hb; split_handlers; (reflexivity || lia).
Qed.

Lemma belowLast_run s evs :
  Forall (belowLast (stepsLength s)) evs ->
  resultsRequests (run s evs) = resultsRequests s.
Proof.
  revert s; induction evs as [|e evs IH]; intros s Hall; [done|].
  inversion Hall as [|? ? He Hevs]; subst.
  rewrite run_cons, IH, belowLast_handle; [done..|].
  by rewrite stepsLength_handle.
Qed.

(** A result request is sent once for each handled completion, and for
    nothing else. *)
Lemma resultsRequests_handle s e :
  resultsRequests (handle s e)
  = (resultsRequests s + (if handledCompletion s e then 1 else 0))%nat.
Proof.
  destruct e; unfold handledCompletion; unfold_handlers; split_handlers;
    rewrite ?andb_false_r; simpl; lia.
Qed.

Lemma resultsRequests_run s evs :
  resultsRequests (run s evs)
  = (resultsRequests s + completionsHandled s evs)%nat.
Proof.
  revert s; induction evs as [|e evs IH]; intros s; cbn [completionsHandled].
  - unfold run. simpl. lia.
  - rewrite run_cons, IH, resultsRequests_handle. lia.
Qed.

(** What delivering a last-step answer to a mounted page does. *)
Lemma completion_handle s step :
  isMounted s = true ->
  (0 < progressInFlight s)%nat ->
  Z.of_nat (stepsLength s) <= step ->
  let s1 := handle s (ProgressOk step) in
  pollInterval s1 = false
  /\ resultsRequests s1 = S (resultsRequests s)
  /\ progressInFlight s1 = pred (progressInFlight s)
  /\ currentStep s1 = step
  /\ processedSteps s1 = updateSteps step (processedSteps s).
Proof.
  intros Hm Hp Hs. unfold_handlers.
  rewrite bool_decide_eq_true_2 by done. simpl. rewrite Hm. simpl.
  destruct (Z.leb_spec (Z.of_nat (stepsLength s)) step); [|lia].
  by repeat split.
Qed.

(** A status answer handled by a mounted page stores the step and the
    updated stage list. *)
Lemma progress_handle s step :
  isMounted s = true ->
  (0 < progressInFlight s)%nat ->
  currentStep (handle s (ProgressOk step)) = step
  /\ processedSteps (handle s (ProgressOk step))
     = updateSteps step (processedSteps s).
Proof.
  intros Hm Hp. unfold_handlers.
  rewrite bool_decide_eq_true_2 by done. simpl. rewrite Hm. simpl.
  by destruct (Z.leb_spec (Z.of_nat (stepsLength s)) step).
Qed.

Lemma title_updateSteps step prev :
  title <$> updateSteps step prev = title <$> prev.
Proof.
  apply list_eq. intros i.
  rewrite !list_lookup_fmap, lookup_updateSteps. by destruct (prev !! i).
Qed.

Lemma description_updateSteps step prev :
  description <$> updateSteps step prev = description <$> prev.
Proof.
  apply list_eq. intros i.
  rewrite !list_lookup_fmap, lookup_updateSteps. by destruct (prev !! i).
Qed.

(** No event changes a title or a description. *)
Lemma labels_handle s e :
  title <$> processedSteps (handle s e) = title <$> processedSteps s
  /\ description <$> processedSteps (handle s e)
     = description <$> processedSteps s.
Proof.
  destruct e; unfold_handlers; split_handlers;
    rewrite ?title_updateSteps, ?description_updateSteps; by split.
Qed.

Lemma labels_run s evs :
  title <$> processedSteps (run s evs) = title <$> processedSteps s
  /\ description <$> processedSteps (run s evs)
     = description <$> processedSteps s.
Proof.
  revert s; induction evs as [|e evs IH]; intros s; [done|].
  rewrite run_cons.
  destruct (IH (handle s e)) as [-> ->]. apply labels_handle.
Qed.

Lemma processedSteps_mount sid : processedSteps (mount sid) = steps.
Proof. unfold mount, useEffect. by destruct (decide _). Qed.

Lemma stepsLength_mount sid : stepsLength (mount sid) = N.
Proof. unfold mount, useEffect. by destruct (decide _). Qed.

Lemma resultsRequests_mount sid : resultsRequests (mount sid) = 0%nat.
Proof. unfold mount, useEffect. by destruct (decide _). Qed.

End ProcessingPageFacts.

Import ProcessingPage ProcessingPageFacts.

(** C1.  A status response with [0 <= currentStep <= N] is applied to a stage
    list of the page's [N = 7] stages.  After the update, stage [i] is
    [completed] exactly when [i < currentStep], [processing] exactly when
    [i = currentStep] and [pending] exactly when [i > currentStep]; hence
    exactly [currentStep] stages are completed, one stage is processing when
    [currentStep < N] and none when [currentStep = N], all others are
    pending, and the resulting states are the same whatever the previous
    stage list was.  This update is what the poll handler stores when it
    handles the response on a mounted page. *)
Theorem C1_stage_states_from_index_and_step
    (prev : list ProcessingStep) (currentStep : Z) :
  length prev = N ->
  0 <= currentStep <= Z.of_nat N ->
  let next := updateSteps currentStep prev in
  N = 7%nat
  /\ length next = N
  /\ (forall i s, next !! i = Some s ->
        (status s = completed <-> Z.of_nat i < currentStep)
        /\ (status s = processing <-> Z.of_nat i = currentStep)
        /\ (status s = pending <-> currentStep < Z.of_nat i))
  /\ countStatus completed next = Z.to_nat currentStep
  /\ countStatus processing next = (if decide (currentStep < Z.of_nat N) then 1%nat else 0%nat)
  /\ (countStatus processing next <= 1)%nat
  /\ (countStatus processing next = 1%nat <-> currentStep < Z.of_nat N)
  /\ (countStatus completed next + countStatus processing next
      + countStatus pending next = N)%nat
  /\ (forall prev', length prev' = N ->
        status <$> updateSteps currentStep prev' = status <$> next)
  /\ (forall s,
        isMounted s = true -> (0 < progressInFlight s)%nat ->
        processedSteps s = prev ->
        processedSteps (handle s (ProgressOk currentStep)) = next).
Proof.
  intros Hlen Hstep next. subst next.
  rewrite !countStatus_updateSteps, length_updateSteps, Hlen.
  rewrite countAt_completed, countAt_processing, countAt_pending by lia.
  split; [reflexivity|]. split; [reflexivity|]. split.
  { intros i s. rewrite lookup_updateSteps.
    destruct (prev !! i) as [p|]; simpl; [|done].
    intros [= <-]. simpl.
    auto using stepStatus_completed, stepStatus_processing, stepStatus_pending. }
  split; [lia|]. split; [done|].
  split; [destruct (decide _); lia|].
  split; [destruct (decide _); split; (lia || done)|].
  split; [destruct (decide _); lia|].
  split.
  { intros prev' Hlen'. by rewrite !status_updateSteps, Hlen, Hlen'. }
  intros s Hm Hp <-. by apply progress_handle.
Qed.

(** C1, at the seed stage list with the job at step 3. *)
Lemma C1_stage_states_witness :
  status <$> updateSteps 3 steps =
    [completed; completed; completed; processing; pending; pending; pending]
  /\ countStatus completed (updateSteps 3 steps) = 3%nat.
Proof.
  split; [reflexivity|].
  apply (C1_stage_states_from_index_and_step steps 3);
    [reflexivity | unfold N; simpl; lia].
Defined.

(** C10.  An update of the stage list changes the [status] field only: it
    keeps the number of stages, and at every index the title and the
    description after the update are those before it, for every step value
    the server may report.  So in every run of the page the titles and the
    descriptions are those of the seed list. *)
Theorem C10_update_keeps_title_and_description
    (prev : list ProcessingStep) (step : Z) :
  length (updateSteps step prev) = length prev
  /\ title <$> updateSteps step prev = title <$> prev
  /\ description <$> updateSteps step prev = description <$> prev
  /\ (forall i before,
        prev !! i = Some before ->
        exists after,
          updateSteps step prev !! i = Some after
          /\ title after = title before
          /\ description after = description before)
  /\ (forall session_id events,
        title <$> processedSteps (run (mount session_id) events)
          = title <$> steps
        /\ description <$> processedSteps (run (mount session_id) events)
           = description <$> steps).
Proof.
  split; [apply length_updateSteps|].
  split; [apply title_updateSteps|].
  split; [apply description_updateSteps|].
  split.
  - intros i before E. rewrite lookup_updateSteps, E. simpl. eauto.
  - intros sid evs. rewrite <- (processedSteps_mount sid). apply labels_run.
Qed.

(** C3 as stated does not hold.  The first status request is still on the
    wire when the interval fires and sends a second one; both come back with
    step 7.  The first answer clears the timer and sends the result request;
    the second answer is handled in the same way and sends it again. *)
Lemma C3_second_completion_fetches_again :
  isMounted (run (mount "job-1") [Tick]) = true
  /\ progressInFlight (run (mount "job-1") [Tick]) = 2%nat
  /\ pollInterval (run (mount "job-1") [Tick; ProgressOk 7]) = false
  /\ resultsRequests (run (mount "job-1") [Tick; ProgressOk 7]) = 1%nat
  /\ isMounted (run (mount "job-1") [Tick; ProgressOk 7]) = true
  /\ progressInFlight (run (mount "job-1") [Tick; ProgressOk 7]) = 1%nat
  /\ resultsRequests (run (mount "job-1") [Tick; ProgressOk 7; ProgressOk 7])
     = 2%nat
  /\ resultsRequests (run (mount "job-1") [Tick; ProgressOk 7; ProgressOk 7])
     <> 1%nat.
Proof. vm_compute. repeat split; discriminate. Qed.

(** C3, amended.  In an execution that has seen no last-step answer so far,
    let a status answer with [currentStep >= N] be handled while the page is
    mounted.  It clears the timer and sends the first result request.  From
    then on no status request is sent whatever happens next, and one more
    result request is sent for each further last-step answer that the
    mounted page handles, which can only answer a status request that was
    already on the wire: the number of result requests stays between 1 and 1
    plus the number of those status requests, and is exactly 1 when none was
    on the wire. *)
Theorem C3_completion_stops_polling_and_fetches
    (session_id : string) (before after : list Event) (step : Z) :
  Forall (belowLast N) before ->
  let s := run (mount session_id) before in
  isMounted s = true ->
  (0 < progressInFlight s)%nat ->
  Z.of_nat N <= step ->
  let s1 := handle s (ProgressOk step) in
  let s2 := run s1 after in
  resultsRequests s = 0%nat
  /\ resultsRequests s1 = 1%nat
  /\ pollInterval s1 = false
  /\ pollInterval s2 = false
  /\ progressRequests s2 = progressRequests s1
  /\ resultsRequests s2 = (1 + completionsHandled s1 after)%nat
  /\ (1 <= resultsRequests s2 <= 1 + progressInFlight s1)%nat
  /\ (progressInFlight s1 = 0%nat -> resultsRequests s2 = 1%nat).
Proof.
  intros Hbefore s Hm Hp Hstep s1 s2.
  assert (Hlen : stepsLength s = N).
  { unfold s. by rewrite stepsLength_run, stepsLength_mount. }
  assert (H0 : resultsRequests s = 0%nat).
  { unfold s. rewrite belowLast_run, resultsRequests_mount; [done|].
    by rewrite stepsLength_mount. }
  destruct (completion_handle s step Hm Hp) as (Ht & Hr & Hf & _); [lia|].
  fold s1 in Ht, Hr, Hf.
  destruct (timerOff_run s1 after Ht) as (Ht2 & Hq & Hlo & Hhi).
  fold s2 in Ht2, Hq, Hlo, Hhi.
  assert (Hn : resultsRequests s2 = (1 + completionsHandled s1 after)%nat).
  { unfold s2. rewrite resultsRequests_run. lia. }
  repeat split; try done; lia.
Qed.

(** C3, amended, on a run: the job is at step 2, then at step 7 with no other
    status request on the wire; later ticks and answers change nothing. *)
Lemma C3_completion_witness :
  resultsRequests
    (run (handle (run (mount "job-1") [ProgressOk 2; Tick]) (ProgressOk 7))
         [Tick; ProgressOk 7; ResultsFailed; Tick])
  = 1%nat.
Proof.
  apply (C3_completion_stops_polling_and_fetches
           "job-1" [ProgressOk 2; Tick]
           [Tick; ProgressOk 7; ResultsFailed; Tick] 7).
  - repeat constructor; vm_compute; reflexivity.
  - reflexivity.
  - vm_compute. lia.
  - vm_compute. discriminate.
  - reflexivity.
Defined.

(** C4.  In every execution, once the cleanup of the effect has run, the
    timer is cleared and stays cleared, and whatever is delivered afterwards
    (answers or failures of status and result requests that were on the
    wire, a late tick) leaves [currentStep], [processedSteps] and
    [finalResult] as they were at the cleanup, calls [navigate] no more, and
    sends no request. *)
Theorem C4_nothing_happens_after_teardown
    (session_id : string) (before after : list Event) :
  let s := run (mount session_id) before in
  let s' := run s (Unmount :: after) in
  pollInterval s' = false
  /\ isMounted s' = false
  /\ currentStep s' = currentStep s
  /\ processedSteps s' = processedSteps s
  /\ finalResult s' = finalResult s
  /\ navigations s' = navigations s
  /\ progressRequests s' = progressRequests s
  /\ resultsRequests s' = resultsRequests s.
Proof.
  intros s s'. unfold s'. rewrite run_cons.
  destruct (cleanup_tornDown s) as [Ht Hs].
  destruct (tornDown_run _ after Ht) as [[Hm Hp] Hs'].
  pose proof (sameOutside_trans _ _ _ Hs Hs') as (?&?&?&?&?&?).
  by repeat split.
Qed.

Import JS Binary64 ResultsPage Binary64Facts ResultsPageFacts.

(** C2.  The claim fails on the code when [analysis_summary] is absent.  The
    destructuring gives the local [analysis_summary] a default, but the
    monthly flows are read from [finalResult.analysis_summary] itself: for a
    payload that carries only a [session_id] the page throws a [TypeError]
    and renders nothing.  A payload with a [session_id] renders exactly when
    its [analysis_summary] is present, and with an empty [analysis_summary]
    every derived value is its default. *)
Theorem C2_absent_analysis_summary_throws :
  ResultsPage (Some onlySession) =
    Thrown (TypeError
              "Cannot read properties of undefined (reading 'monthly_flows')")
  /\ (forall payload c sid,
        session_id payload = Some (String c sid) ->
        (analysis_summary payload = None <->
           exists e, ResultsPage (Some payload) = Thrown e)
        /\ (is_Some (analysis_summary payload) <->
              exists view, ResultsPage (Some payload) = Rendered view))
  /\ ResultsPage (Some emptySummary) =
       Rendered
         {| v_loan_score := 0%Q;
            v_loanVerdict := mkBadge "High Risk" "text-red-600";
            v_dtiRatio := mkFixed1 false 0;
            v_dtiRisk := mkBadge "Low risk" "text-emerald-600";
            v_dtiCaption := "––";
            v_netFlowCaption := "––";
            v_monthlyData := [];
            v_balanceData := [];
            v_spendingData := [];
            v_summary_paragraph := None;
            v_issues := NoFlaggedStatements |}.
Proof.
  split; [reflexivity|]. split; [|reflexivity].
  intros payload c sid Hs. split; split.
  - intros Ha. eexists. by apply (ResultsPage_without_summary payload c sid).
  - intros [e He]. destruct (analysis_summary payload) as [summary|] eqn:Ha; [|done].
    destruct (ResultsPage_with_summary payload c sid summary Hs Ha) as [v Hv].
    congruence.
  - intros [summary Ha]. by apply (ResultsPage_with_summary payload c sid summary).
  - intros [view Hv]. apply ResultsPage_Rendered in Hv as (summary & -> & _).
    by eexists.
Qed.

(** C5.  For every payload that the page renders, the percentage shown on
    the ratio card is [toFixed(1)] of the double [debt_to_income * 100],
    which is the exact product up to the rounding of one multiplication.
    Below [10^21] it is printed as a sign, an integer part, a point and one
    digit and denotes the tenth nearest to the magnitude of that double (the
    larger one on a tie); from [10^21] on and for an infinite product it is
    the product itself.  The risk label is [getDtiRisk] of [parseFloat] of
    what is shown, and [getDtiRisk] answers 'Low risk' exactly for values up
    to 28, 'Moderate risk' exactly for values above 28 and up to 36, and
    'High risk' exactly for values above 36; so 28.0 is low, 28.1 and 36.0
    are moderate and 36.1 is high.  For the double written 0.0015 the card
    shows 0.1, for the one written 0.2806 it shows 28.1, and for [2^70] it
    shows 1.1805916207174113e+23. *)
Theorem C5_dti_percentage_and_risk_bucket
    (payload : GeminiResult) (summary : AnalysisSummary) (view : View) :
  ResultsPage (Some payload) = Rendered view ->
  analysis_summary payload = Some summary ->
  let debt_to_income := default 0%Q (debt_to_income summary) in
  let product := mul debt_to_income 100%Q in
  let shown := parseFloat (v_dtiRatio view) in
  v_dtiRatio view = toFixed product
  /\ product <> NaN
  /\ (forall p : Q,
        product = Finite p ->
        (Qabs (p - debt_to_income * 100)
         <= roundingError (debt_to_income * 100))%Q)
  /\ (forall p : Q,
        product = Finite p ->
        (Qabs p < inject_Z (10 ^ 21))%Q ->
        exists n : Z,
          v_dtiRatio view = Digits (mkFixed1 (isNegative p) n)
          /\ print (v_dtiRatio view)
             = (if isNegative p then "-" else "")
               +:+ pretty (n / 10) +:+ "." +:+ pretty (n mod 10)
          /\ 0 <= n
          /\ (Qabs p * 10 - (1 # 2) < inject_Z n)%Q
          /\ (inject_Z n <= Qabs p * 10 + (1 # 2))%Q
          /\ shown
             = round64
                 ((if isNegative p then -1 else 1) * (inject_Z n / 10))%Q)
  /\ (forall p : Q,
        product = Finite p ->
        (inject_Z (10 ^ 21) <= Qabs p)%Q ->
        v_dtiRatio view = Exponential p /\ shown = Finite p)
  /\ (forall s : bool,
        product = Infinity s ->
        v_dtiRatio view = InfinityText s /\ shown = Infinity s)
  /\ v_dtiRisk view = getDtiRisk shown
  /\ (forall ratio : number,
        (label (getDtiRisk ratio) = "Low risk" <-> (ratio <= 28)%Q)
        /\ (label (getDtiRisk ratio) = "Moderate risk"
            <-> (28 < ratio)%Q /\ (ratio <= 36)%Q)
        /\ (label (getDtiRisk ratio) = "High risk" <-> (36 < ratio)%Q))
  /\ label (getDtiRisk (Infinity false)) = "High risk"
  /\ label (getDtiRisk (Infinity true)) = "Low risk"
  /\ label (getDtiRisk 28%Q) = "Low risk"
  /\ label (getDtiRisk (281 # 10)%Q) = "Moderate risk"
  /\ label (getDtiRisk 36%Q) = "Moderate risk"
  /\ label (getDtiRisk (361 # 10)%Q) = "High risk"
  /\ print (dtiRatio double_0_0015) = "0.1"
  /\ print (dtiRatio double_0_2806) = "28.1"
  /\ label (dtiRisk double_0_2806) = "Moderate risk"
  /\ print (dtiRatio (inject_Z (2 ^ 70))) = "1.1805916207174113e+23"
  /\ label (dtiRisk (inject_Z (2 ^ 70))) = "High risk".
Proof.
  intros Hv Ha d product shown.
  apply ResultsPage_Rendered in Hv as (summary' & Ha' & Hview).
  assert (summary' = summary) as -> by congruence.
  subst shown. rewrite Hview. cbn [v_dtiRatio v_dtiRisk]. fold d.
  unfold dtiRatio. fold product.
  split; [reflexivity|]. split; [apply mul_finite|].
  split; [intros p Hp; by apply round64_error|].
  split; [intros p -> Hp; by apply toFixed_positional|].
  split; [intros p -> Hp; by rewrite (toFixed_exponential p Hp)|].
  split; [by intros s ->|]. split; [reflexivity|].
  split.
  { intros ratio.
    auto using getDtiRisk_low, getDtiRisk_moderate, getDtiRisk_high. }
  repeat split; by vm_compute.
Qed.

(** C5, on a payload whose [debt_to_income] is the double written 0.0015:
    the card shows 0.1 and 'Low risk'. *)
Lemma C5_dti_witness :
  print
    (v_dtiRatio
       {| v_loan_score := 0%Q;
          v_loanVerdict := mkBadge "High Risk" "text-red-600";
          v_dtiRatio := mkFixed1 false 1;
          v_dtiRisk := mkBadge "Low risk" "text-emerald-600";
          v_dtiCaption := "0.1% of income";
          v_netFlowCaption := "––";
          v_monthlyData := [];
          v_balanceData := [];
          v_spendingData := [];
          v_summary_paragraph := None;
          v_issues := NoFlaggedStatements |}) = "0.1"
  /\ v_dtiRatio
       {| v_loan_score := 0%Q;
          v_loanVerdict := mkBadge "High Risk" "text-red-600";
          v_dtiRatio := mkFixed1 false 1;
          v_dtiRisk := mkBadge "Low risk" "text-emerald-600";
          v_dtiCaption := "0.1% of income";
          v_netFlowCaption := "––";
          v_monthlyData := [];
          v_balanceData := [];
          v_spendingData := [];
          v_summary_paragraph := None;
          v_issues := NoFlaggedStatements |}
     = toFixed (mul double_0_0015 100%Q).
Proof.
  split; [reflexivity|].
  refine (proj1 (C5_dti_percentage_and_risk_bucket
                   (mkResult (Some "job-1") None
                      (Some (mkSummary None None None (Some double_0_0015) None))
                      None None None None)
                   (mkSummary None None None (Some double_0_0015) None)
                   _ _ eq_refl)).
  by vm_compute.
Defined.

(** C6.  For every score, [getLoanVerdict] answers 'Likely Approved' exactly
    when the score is at least 80, 'Requires Review' exactly when it is at
    least 60 and below 80, and 'High Risk' exactly when it is below 60.  The
    score is compared as it is, also outside 0..100.  So 79 and 60 require
    review, 80 is likely approved and 59 is high risk. *)
Theorem C6_loan_verdict_bucket (score : number) :
  (label (getLoanVerdict score) = "Likely Approved" <-> (80 <= score)%Q)
  /\ (label (getLoanVerdict score) = "Requires Review"
      <-> (60 <= score)%Q /\ (score < 80)%Q)
  /\ (label (getLoanVerdict score) = "High Risk" <-> (score < 60)%Q)
  /\ label (getLoanVerdict 79%Q) = "Requires Review"
  /\ label (getLoanVerdict 80%Q) = "Likely Approved"
  /\ label (getLoanVerdict 59%Q) = "High Risk"
  /\ label (getLoanVerdict 60%Q) = "Requires Review"
  /\ label (getLoanVerdict 250%Q) = "Likely Approved"
  /\ label (getLoanVerdict (-5)%Q) = "High Risk".
Proof.
  split; [apply getLoanVerdict_approved|].
  split; [apply getLoanVerdict_review|].
  split; [apply getLoanVerdict_high|].
  repeat split.
Qed.

(** C7.  For every [monthly_flows] mapping, the rows kept for the two charts
    are its last 6 entries in their order (all of them when there are fewer):
    the mapping is some prefix followed by the kept rows.  The bar series
    carries month, deposits and withdrawals of each kept entry and the line
    series its month and end balance, unchanged (negative balances stay
    negative), row by row in parallel.  Eight recorded months give the last
    six in order; an empty mapping gives two empty series. *)
Theorem C7_last_six_months_series (flows : Record_ MonthlyFlow) :
  take (length flows - 6) flows ++ last6 flows = flows
  /\ length (last6 flows) = Nat.min 6 (length flows)
  /\ length (monthlyData flows) = length (last6 flows)
  /\ length (balanceData flows) = length (last6 flows)
  /\ (forall i month f,
        last6 flows !! i = Some (month, f) ->
        monthlyData flows !! i
          = Some (mkMonthly month (deposits f) (withdrawals f))
        /\ balanceData flows !! i = Some (mkBalance month (end_balance f)))
  /\ m_month <$> monthlyData eightMonths
     = ["2024-03"; "2024-04"; "2024-05"; "2024-06"; "2024-07"; "2024-08"]
  /\ balanceData eightMonths
     = [ mkBalance "2024-03" (Some 0%Q);
         mkBalance "2024-04" (Some 500%Q);
         mkBalance "2024-05" (Some (-300)%Q);
         mkBalance "2024-06" (Some 150%Q);
         mkBalance "2024-07" (Some 650%Q);
         mkBalance "2024-08" (Some 1250%Q) ]
  /\ monthlyData [] = []
  /\ balanceData [] = [].
Proof.
  split; [apply last6_suffix|].
  split; [apply length_last6|].
  split; [apply length_fmap|].
  split; [apply length_fmap|].
  split.
  { intros i month f Hi.
    by rewrite monthlyData_lookup, balanceData_lookup, Hi. }
  repeat split.
Qed.

(** C8.  For every [spending_by_category] mapping and every
    [total_withdrawals], the expanded list has one element per entry of the
    mapping, in the mapping's order; the element of [(category, percent)]
    carries that category, that percent and, as its amount, [Math.round] of
    the double [percent / 100 * total_withdrawals]: the integer nearest to
    that double, the upper one on a tie, or the double itself when it is
    infinite.  [{A: 50, B: 50}] with 1000 withdrawn gives
    [{A, 50, 500}, {B, 50, 500}] in that order, 29 percent of 50 gives 14 (the
    double share is just below 14.5), and the empty mapping gives the empty
    list. *)
Theorem C8_spending_by_category_expansion
    (pct : Record_ number) (total_withdrawals : number) :
  category <$> spendingData pct total_withdrawals = fst <$> pct
  /\ value <$> spendingData pct total_withdrawals = snd <$> pct
  /\ (forall (i : nat) (category : string) (percent : number),
        pct !! i = Some (category, percent) ->
        let share := mul (div percent 100%Q) total_withdrawals in
        spendingData pct total_withdrawals !! i
          = Some (mkSpending category percent (Math_round share))
        /\ (forall x : Q,
              share = Finite x ->
              exists z : Z,
                Math_round share = Finite (inject_Z z)
                /\ (x - (1 # 2) < inject_Z z)%Q
                /\ (inject_Z z <= x + (1 # 2))%Q)
        /\ ((forall x : Q, share <> Finite x) -> Math_round share = share))
  /\ spendingData [("A", 50%Q); ("B", 50%Q)] 1000%Q
     = [mkSpending "A" 50%Q 500%Q; mkSpending "B" 50%Q 500%Q]
  /\ spendingData [("Rent", 29%Q)] 50%Q = [mkSpending "Rent" 29%Q 14%Q]
  /\ mul (div 29%Q 100%Q) 50%Q
     = Finite (8162774324609023 # 562949953421312)%Q
  /\ spendingData [] total_withdrawals = [].
Proof.
  unfold spendingData, Object_entries.
  split; [|split; [|split; [|repeat split; by vm_compute]]].
  - rewrite <- list_fmap_compose. apply list_fmap_ext. by intros ? [c v].
  - rewrite <- list_fmap_compose. apply list_fmap_ext. by intros ? [c v].
  - intros i c v Hi. rewrite list_lookup_fmap, Hi.
    split; [reflexivity|].
    destruct (mul (div v 100%Q) total_withdrawals) as [x|s|]; split; try done.
    + intros y [= <-]. cbn [Math_round].
      destruct (Math_round_spec x) as (z & -> & Hz). by exists z.
    + intros Hs. by destruct (Hs x).
Qed.

(** C9.  For every payload that the page renders, the line under the net
    cash flow is the marker '––' exactly when [net_cash_flow] is zero.
    Otherwise it is [toFixed(1)] of the double
    [net_cash_flow / denominator * 100] between a space and
    '% of total activity': below [10^21] a sign, an integer part, a point and
    one digit, of the tenth nearest to the magnitude of that double.  The
    denominator is the double [total_deposits + total_withdrawals], or 1
    when that sum is zero, as it is when both are zero; it is never zero and
    the percentage is always a number.  23 net of 50 in and 30 out reads
    28.7 (the double percentage is just below 28.75). *)
Theorem C9_net_flow_caption
    (payload : GeminiResult) (summary : AnalysisSummary) (view : View) :
  ResultsPage (Some payload) = Rendered view ->
  analysis_summary payload = Some summary ->
  let net_cash_flow := default 0%Q (net_cash_flow summary) in
  let total_deposits := default 0%Q (total_deposits summary) in
  let total_withdrawals := default 0%Q (total_withdrawals summary) in
  let sum := add total_deposits total_withdrawals in
  let denominator := netFlowDenominator total_deposits total_withdrawals in
  let percent := mul (div net_cash_flow denominator) 100%Q in
  (v_netFlowCaption view = "––" <-> net_cash_flow == 0)
  /\ (~ net_cash_flow == 0 ->
      v_netFlowCaption view
        = " " +:+ print (toFixed percent) +:+ "% of total activity")
  /\ percent <> NaN
  /\ (forall p : Q,
        percent = Finite p ->
        (Qabs p < inject_Z (10 ^ 21))%Q ->
        exists n : Z,
          toFixed percent = Digits (mkFixed1 (isNegative p) n)
          /\ print (toFixed percent)
             = (if isNegative p then "-" else "")
               +:+ pretty (n / 10) +:+ "." +:+ pretty (n mod 10)
          /\ 0 <= n
          /\ (Qabs p * 10 - (1 # 2) < inject_Z n)%Q
          /\ (inject_Z n <= Qabs p * 10 + (1 # 2))%Q)
  /\ (forall p : Q,
        percent = Finite p ->
        (inject_Z (10 ^ 21) <= Qabs p)%Q ->
        toFixed percent = Exponential p)
  /\ denominator = orElse sum 1%Q
  /\ denominator <> NaN
  /\ (forall z : Q, denominator = Finite z -> ~ z == 0)
  /\ (total_deposits + total_withdrawals == 0 -> denominator = Finite 1)
  /\ (total_deposits == 0 -> total_withdrawals == 0 -> denominator = Finite 1)
  /\ (sum <> Finite 0 -> denominator = sum)
  /\ netFlowCaption 23%Q 50%Q 30%Q = " 28.7% of total activity"
  /\ netFlowCaption 500%Q 1500%Q 1000%Q = " 20.0% of total activity"
  /\ netFlowCaption (-500)%Q 1500%Q 1000%Q = " -20.0% of total activity"
  /\ netFlowCaption 5%Q 0%Q 0%Q = " 500.0% of total activity"
  /\ netFlowCaption (inject_Z (10 ^ 22)) 1%Q 0%Q = " 1e+24% of total activity"
  /\ netFlowCaption (inject_Z (- 2 ^ 70)) 1%Q 0%Q
     = " -1.1805916207174113e+23% of total activity"
  /\ netFlowCaption 0%Q 1500%Q 1000%Q = "––".
Proof.
  intros Hv Ha net dep wd sum den percent.
  apply ResultsPage_Rendered in Hv as (summary' & Ha' & Hview).
  assert (summary' = summary) as -> by congruence.
  rewrite Hview. cbn [v_netFlowCaption]. fold net dep wd.
  destruct (netFlowDenominator_nonzero dep wd) as [Hnan Hnz]. fold den in Hnan, Hnz.
  split; [apply netFlowCaption_marker|].
  split; [intros Hnet; by apply netFlowCaption_percent|].
  split; [apply netFlowPercent_finite|].
  split.
  { intros p Hp Hlt. rewrite Hp.
    destruct (toFixed_positional p Hlt) as (n & H1 & H2 & H3 & H4 & H5 & _).
    by exists n. }
  split; [intros p -> Hp; by apply toFixed_exponential|].
  split; [reflexivity|]. split; [exact Hnan|]. split; [exact Hnz|].
  split; [apply netFlowDenominator_zero_sum|].
  split.
  { intros Hd Hw. apply netFlowDenominator_zero_sum. rewrite Hd, Hw. reflexivity. }
  split; [apply netFlowDenominator_sum|].
  repeat split; by vm_compute.
Qed.

(** C9, on a payload with 23 net of 50 in and 30 out: the line reads
    28.7% of total activity. *)
Lemma C9_net_flow_witness :
  v_netFlowCaption
    {| v_loan_score := 0%Q;
       v_loanVerdict := mkBadge "High Risk" "text-red-600";
       v_dtiRatio := mkFixed1 false 0;
       v_dtiRisk := mkBadge "Low risk" "text-emerald-600";
       v_dtiCaption := "––";
       v_netFlowCaption := " 28.7% of total activity";
       v_monthlyData := [];
       v_balanceData := [];
       v_spendingData := [];
       v_summary_paragraph := None;
       v_issues := NoFlaggedStatements |}
  = " " +:+ print (toFixed (mul (div 23%Q (netFlowDenominator 50%Q 30%Q)) 100%Q))
    +:+ "% of total activity".
Proof.
  refine (proj1 (proj2 (C9_net_flow_caption
                   (mkResult (Some "job-1") None
                      (Some (mkSummary (Some 50%Q) (Some 30%Q) (Some 23%Q)
                               None None))
                      None None None None)
                   (mkSummary (Some 50%Q) (Some 30%Q) (Some 23%Q) None None)
                   _ _ eq_refl)) _).
  - by vm_compute.
  - discriminate.
Defined.

(** * Further properties of the progress page *)

Module ProcessingPageMore.
Import ProcessingPage ProcessingPageFacts ProcessingPageView.

Lemma updateSteps_updateSteps a b prev :
  updateSteps b (updateSteps a prev) = updateSteps b prev.
Proof.
  apply list_eq. intros i. rewrite !lookup_updateSteps.
  by destruct (prev !! i).
Qed.

Lemma progress_handle_more s step :
  isMounted s = true ->
  (0 < progressInFlight s)%nat ->
  isMounted (handle s (ProgressOk step)) = true
  /\ progressInFlight (handle s (ProgressOk step)) = pred (progressInFlight s).
Proof.
  intros Hm Hp. unfold_handlers.
  rewrite bool_decide_eq_true_2 by done. simpl. rewrite Hm. simpl.
  by destruct (Z.leb_spec (Z.of_nat (stepsLength s)) step).
Qed.

Lemma inStep_handle s e : inStep s -> inStep (handle s e).
Proof.
  intros H.
  destruct e; unfold_handlers; split_handlers; try exact H;
    right; simpl; destruct H as [[_ ->]| ->];
    by rewrite ?updateSteps_updateSteps.
Qed.

Lemma inStep_run s evs : inStep s -> inStep (run s evs).
Proof.
  revert s; induction evs as [|e evs IH]; intros s H; [done|].
  rewrite run_cons. by apply IH, inStep_handle.
Qed.

Lemma inStep_mount sid : inStep (mount sid).
Proof. left. unfold mount, useEffect. by destruct (decide _). Qed.

Lemma orderly_handle s e : orderly s -> orderly (handle s e).
Proof.
  intros (H1 & H2 & H3 & H4).
  destruct e; unfold_handlers; split_handlers;
    repeat match goal with
      | H : bool_decide _ = true |- _ => apply bool_decide_eq_true in H
      end;
    repeat split; simpl; intros; try done; try lia;
    try (apply H1; done); try (apply H2; lia); try (apply H3; done).
  all: try (destruct (pollInterval s) eqn:E; [|done];
            specialize (H1 eq_refl); congruence).
  all: try (assert (0 < resultsRequests s)%nat by lia; auto).
  all: congruence.
Qed.

Lemma orderly_run s evs : orderly s -> orderly (run s evs).
Proof.
  revert s; induction evs as [|e evs IH]; intros s H; [done|].
  rewrite run_cons. by apply IH, orderly_handle.
Qed.

Lemma orderly_mount sid : orderly (mount sid).
Proof.
  unfold mount, useEffect. destruct (decide _); repeat split; simpl;
    try done; try lia; by intros [? ?].
Qed.

End ProcessingPageMore.

Import ProcessingPageView ProcessingPageMore.

(** X1.  Updating the stage list for one step and then for another gives
    what the second update alone gives: the last status answer decides, and
    repeating an answer changes nothing. *)
Theorem X1_last_update_decides (a b : Z) (prev : list ProcessingStep) :
  updateSteps b (updateSteps a prev) = updateSteps b prev
  /\ updateSteps a (updateSteps a prev) = updateSteps a prev
  /\ (forall s,
        isMounted s = true -> (2 <= progressInFlight s)%nat ->
        processedSteps (run s [ProgressOk a; ProgressOk b])
          = updateSteps b (processedSteps s)
        /\ currentStep (run s [ProgressOk a; ProgressOk b]) = b).
Proof.
  split; [apply updateSteps_updateSteps|].
  split; [apply updateSteps_updateSteps|].
  intros s Hm Hp. rewrite !run_cons. change (run ?x []) with x.
  destruct (progress_handle s a Hm) as [Ha1 Ha2]; [lia|].
  destruct (progress_handle_more s a Hm) as [Hm' Hp']; [lia|].
  destruct (progress_handle (handle s (ProgressOk a)) b Hm') as [Hb1 Hb2];
    [lia|].
  by rewrite Hb1, Hb2, Ha2, updateSteps_updateSteps.
Qed.

(** X2.  In every run of the page the stage list is the one that belongs
    to [currentStep]: until the first status answer is stored it is the
    seed list with [currentStep = 0], afterwards it is the seed list
    updated for [currentStep], so the states of the stages are those of C1
    for the step the page shows. *)
Theorem X2_stage_list_follows_current_step
    (session_id : string) (events : list Event) :
  let s := run (mount session_id) events in
  length (processedSteps s) = N
  /\ ((currentStep s = 0 /\ processedSteps s = steps)
      \/ processedSteps s = updateSteps (currentStep s) steps)
  /\ (processedSteps s <> steps ->
      status <$> processedSteps s
        = (fun i => stepStatus i (currentStep s)) <$> seq 0 N).
Proof.
  intros s.
  pose proof (inStep_run _ events (inStep_mount session_id)) as H. fold s in H.
  split.
  { unfold s. by rewrite length_processedSteps_run, processedSteps_mount. }
  split; [exact H|].
  intros Hne. destruct H as [[_ ?]| ->]; [done|].
  by rewrite status_updateSteps.
Qed.

(** X3.  In every run of the page the interval timer is set only while the
    page is mounted: no timer is left behind by a page that was torn down or
    that had no [session_id]. *)
Theorem X3_timer_only_while_mounted
    (session_id : string) (events : list Event) :
  let s := run (mount session_id) events in
  (pollInterval s = true -> isMounted s = true)
  /\ (isMounted s = false -> pollInterval s = false)
  /\ (session_id = "" -> pollInterval s = false).
Proof.
  intros s.
  destruct (orderly_run _ events (orderly_mount session_id)) as (H1 & _).
  fold s in H1.
  split; [exact H1|]. split.
  - intros Hm. destruct (pollInterval s); [|done].
    specialize (H1 eq_refl). congruence.
  - intros ->. apply (tornDown_run (mount "") events). by split.
Qed.

(** X4.  Without a [session_id] the page calls [navigate('/')] once and does
    nothing else: no request is ever sent, no timer is set, and the step,
    the stage list and the result stay at their initial values whatever
    happens afterwards. *)
Theorem X4_no_session_goes_home (events : list Event) :
  let s := run (mount "") events in
  navigations s = ["/"]
  /\ pollInterval s = false
  /\ progressRequests s = 0%nat
  /\ resultsRequests s = 0%nat
  /\ currentStep s = 0
  /\ processedSteps s = steps
  /\ finalResult s = None.
Proof.
  intros s.
  destruct (tornDown_run (mount "") events) as [[_ Ht] (H1&H2&H3&H4&H5&H6)];
    [by split|].
  fold s in Ht, H1, H2, H3, H4, H5, H6.
  by repeat split.
Qed.

(** X5.  When a status request or the result request fails while the page
    is mounted, the failure is logged, the timer is cleared, the step, the
    stage list and the result are left as they were, and no status request
    is ever sent again. *)
Theorem X5_failure_stops_polling
    (s : State) (failure : Event) (after : list Event) :
  failure = ProgressFailed \/ failure = ResultsFailed ->
  isMounted s = true ->
  enabled failure s = true ->
  let s1 := handle s failure in
  errorsLogged s1 = S (errorsLogged s)
  /\ pollInterval s1 = false
  /\ currentStep s1 = currentStep s
  /\ processedSteps s1 = processedSteps s
  /\ finalResult s1 = finalResult s
  /\ progressRequests s1 = progressRequests s
  /\ resultsRequests s1 = resultsRequests s
  /\ pollInterval (run s1 after) = false
  /\ progressRequests (run s1 after) = progressRequests s.
Proof.
  intros Hf Hm He s1.
  assert (H : errorsLogged s1 = S (errorsLogged s)
              /\ pollInterval s1 = false
              /\ currentStep s1 = currentStep s
              /\ processedSteps s1 = processedSteps s
              /\ finalResult s1 = finalResult s
              /\ progressRequests s1 = progressRequests s
              /\ resultsRequests s1 = resultsRequests s).
  { subst s1. unfold handle. rewrite He. simpl.
    destruct Hf as [-> | ->]; unfold_handlers; rewrite Hm; by repeat split. }
  destruct H as (H1 & H2 & H3 & H4 & H5 & H6 & H7).
  destruct (timerOff_run s1 after H2) as (H8 & H9 & _).
  repeat split; try done. by rewrite H9.
Qed.

(** X5, on a run: the first status request fails, later ticks send
    nothing. *)
Lemma X5_failure_witness :
  progressRequests
    (run (handle (mount "job-1") ProgressFailed) [Tick; Tick; Tick])
  = 1%nat.
Proof.
  apply (X5_failure_stops_polling (mount "job-1") ProgressFailed
           [Tick; Tick; Tick]).
  - by left.
  - reflexivity.
  - reflexivity.
Defined.

(** X6.  In every run of the page a result request is sent only with the
    timer cleared, and a result is stored only after a result request was
    sent: the page never shows a result while it still polls. *)
Theorem X6_result_only_after_polling_stopped
    (session_id : string) (events : list Event) :
  let s := run (mount session_id) events in
  ((0 < resultsRequests s)%nat -> pollInterval s = false)
  /\ (is_Some (finalResult s) -> (0 < resultsRequests s)%nat)
  /\ (is_Some (finalResult s) -> pollInterval s = false)
  /\ (resultsInFlight s <= resultsRequests s)%nat.
Proof.
  intros s.
  destruct (orderly_run _ events (orderly_mount session_id)) as (_&H2&H3&H4).
  fold s in H2, H3, H4. repeat split; auto.
Qed.

(** X7.  When the mounted page handles a last-step answer and holds no
    result yet, the button 'View Financial Report' is enabled but a click on
    it does nothing; once the result has arrived, the click navigates to
    [/results] with exactly that result. *)
Theorem X7_report_button_waits_for_result (s : State) (step : Z) :
  isMounted s = true ->
  (0 < progressInFlight s)%nat ->
  stepsLength s = N ->
  Z.of_nat N <= step ->
  finalResult s = None ->
  let s1 := handle s (ProgressOk step) in
  viewReportDisabled s1 = false
  /\ onViewReportClick s1 = None
  /\ (forall r,
        onViewReportClick (handle s1 (ResultsOk r))
          = Some (mkNavigation "/results" (Some r))).
Proof.
  intros Hm Hp Hl Hs Hf s1.
  assert (E : s1 = fetchResults (clearInterval
                (setProcessedSteps (updateSteps step)
                   (setCurrentStep step (takeProgress s))))).
  { subst s1. unfold handle, enabled. rewrite bool_decide_eq_true_2 by done.
    simpl. unfold onProgress. simpl. rewrite Hm. simpl. rewrite Hl.
    destruct (Z.leb_spec (Z.of_nat N) step); [done | lia]. }
  assert (Hc : (Z.of_nat 7 <=? step) = true).
  { apply Z.leb_le. exact Hs. }
  rewrite E. unfold onViewReportClick, viewReportDisabled, isComplete.
  simpl. rewrite Hc, Hf. simpl. split; [done|]. split; [done|].
  intros r. unfold handle, enabled. simpl. unfold onResults. simpl.
  rewrite Hm. simpl. by rewrite Hc.
Qed.

(** X7, on a run: the job is done after the first answer. *)
Lemma X7_report_button_witness :
  onViewReportClick (handle (mount "job-1") (ProgressOk 7)) = None.
Proof.
  apply (X7_report_button_waits_for_result (mount "job-1") 7);
    (reflexivity || (vm_compute; lia) || (vm_compute; discriminate)).
Defined.

(** X8.  In every run of the page the panel under the timeline is shown
    exactly when [0 < currentStep <= N], and it then shows the description
    of stage [currentStep - 1] of the seed list, a stage that is marked
    completed: the text is that of the stage just finished, not of the one
    in process. *)
Theorem X8_active_description_is_of_last_completed
    (session_id : string) (events : list Event) :
  let s := run (mount session_id) events in
  (activeDescription s = None
   <-> currentStep s <= 0 \/ Z.of_nat N < currentStep s)
  /\ (0 < currentStep s <= Z.of_nat N ->
      exists stage,
        steps !! Z.to_nat (currentStep s - 1) = Some stage
        /\ activeDescription s = Some (Some (description stage))
        /\ status <$> processedSteps s !! Z.to_nat (currentStep s - 1)
           = Some completed).
Proof.
  intros s.
  pose proof (inStep_run _ events (inStep_mount session_id)) as H. fold s in H.
  unfold activeDescription. fold N.
  destruct (Z.ltb_spec 0 (currentStep s)) as [H0|H0];
    destruct (Z.leb_spec (currentStep s) (Z.of_nat N)) as [H1|H1]; simpl;
    (split; [split; [try done; intros _; lia | try done; intros [?|?]; lia]|]);
    try (intros [? ?]; lia).
  intros _. destruct H as [[? _]| ->]; [lia|].
  destruct (lookup_lt_is_Some_2 steps (Z.to_nat (currentStep s - 1)))
    as [stage Hstage].
  { change (length steps) with N. lia. }
  exists stage. rewrite lookup_updateSteps, Hstage. simpl.
  split; [done|]. split; [done|]. f_equal.
  apply stepStatus_completed. lia.
Qed.

(** * Properties of the progress page with a simulated job *)

Module SimulatedFacts.
Import ProcessingPage ProcessingPageFacts.
Module Sim := SimulatedProcessingPage.

Lemma run_snoc s evs e : Sim.run s (evs ++ [e]) = Sim.handle (Sim.run s evs) e.
Proof. unfold Sim.run. by rewrite foldl_app. Qed.

Lemma length_steps : length Sim.steps = 7%nat.
Proof. reflexivity. Qed.

(** One event keeps the step within 0..7 and the stage list in step. *)
Lemma handle_keeps s e :
  0 <= Sim.currentStep s <= 7 ->
  (Sim.currentStep s = 0 /\ Sim.processedSteps s = Sim.steps)
  \/ (1 <= Sim.currentStep s
      /\ Sim.processedSteps s
         = updateSteps (Sim.currentStep s - 1) Sim.steps) ->
  let s' := Sim.handle s e in
  0 <= Sim.currentStep s' <= 7
  /\ ((Sim.currentStep s' = 0 /\ Sim.processedSteps s' = Sim.steps)
      \/ (1 <= Sim.currentStep s'
          /\ Sim.processedSteps s'
             = updateSteps (Sim.currentStep s' - 1) Sim.steps)).
Proof.
  intros Hr Hs.
  destruct e; cbn [Sim.handle]; [|by split].
  destruct (Sim.interval s); [|by split].
  unfold Sim.onInterval. rewrite length_steps.
  destruct (Z.leb_spec (Sim.currentStep s + 1) (Z.of_nat 7)); cbn; [|by split].
  split; [lia|]. right. split; [lia|].
  replace (Sim.currentStep s + 1 - 1) with (Sim.currentStep s) by lia.
  destruct Hs as [[_ ->]|[_ ->]]; [done|].
  by rewrite ProcessingPageMore.updateSteps_updateSteps.
Qed.

Lemma run_keeps evs :
  let s := Sim.run Sim.initial evs in
  0 <= Sim.currentStep s <= 7
  /\ ((Sim.currentStep s = 0 /\ Sim.processedSteps s = Sim.steps)
      \/ (1 <= Sim.currentStep s
          /\ Sim.processedSteps s
             = updateSteps (Sim.currentStep s - 1) Sim.steps)).
Proof.
  induction evs as [|e evs IH] using rev_ind.
  - cbn. split; [lia|]. by left.
  - cbn zeta in *. rewrite run_snoc. destruct IH as [H1 H2].
    by apply handle_keeps.
Qed.

Lemma ticks n :
  let s := Sim.run Sim.initial (replicate n Sim.Tick) in
  Sim.currentStep s = Z.of_nat (Nat.min n 7)
  /\ Sim.interval s = bool_decide (n <= 7)%nat.
Proof.
  induction n as [|n IH]; [done|].
  cbn zeta in *. rewrite replicate_S_end, run_snoc.
  destruct IH as [Hc Hi]. cbn [Sim.handle]. rewrite Hi.
  destruct (decide (n <= 7)%nat) as [Hn|Hn].
  - rewrite bool_decide_eq_true_2 by done.
    unfold Sim.onInterval. rewrite Hc, length_steps.
    destruct (Z.leb_spec (Z.of_nat (Nat.min n 7) + 1) (Z.of_nat 7)); cbn.
    + split; [lia|]. rewrite Hi. apply bool_decide_ext. lia.
    + split; [lia|]. symmetry. apply bool_decide_eq_false_2. lia.
  - rewrite bool_decide_eq_false_2 by done.
    split; [rewrite Hc; lia|].
    rewrite Hi, bool_decide_eq_false_2 by done.
    symmetry. apply bool_decide_eq_false_2. lia.
Qed.

End SimulatedFacts.

(** X9.  On the page with the simulated job, in every run the step stays
    within 0..7 and, once the first tick has been handled, the stage list
    is the seed list updated for [currentStep - 1]: [currentStep - 1] stages
    are completed and exactly one is in process, also when the page says
    that the analysis is complete; the last stage is never marked
    completed. *)
Theorem X9_simulated_last_stage_never_completed
    (events : list SimulatedProcessingPage.Event) :
  let s := SimulatedProcessingPage.run SimulatedProcessingPage.initial events in
  let stages := SimulatedProcessingPage.processedSteps s in
  let step := SimulatedProcessingPage.currentStep s in
  0 <= step <= 7
  /\ length stages = 7%nat
  /\ (1 <= step ->
      stages = updateSteps (step - 1) SimulatedProcessingPage.steps
      /\ countStatus processing stages = 1%nat
      /\ countStatus completed stages = Z.to_nat (step - 1))
  /\ (forall stage, stages !! 6%nat = Some stage -> status stage <> completed)
  /\ (SimulatedProcessingPage.isComplete s = true ->
      status <$> stages !! 6%nat = Some processing).
Proof.
  intros s stages step.
  destruct (SimulatedFacts.run_keeps events) as [Hr Hs].
  fold s in Hr, Hs. fold stages step in Hr, Hs.
  assert (Hlen : length stages = 7%nat).
  { destruct Hs as [[_ ->]|[_ ->]]; [done|]. by rewrite length_updateSteps. }
  split; [done|]. split; [done|]. split; [|split].
  - intros H1. destruct Hs as [[? _]|[_ Hs]]; [lia|].
    split; [done|]. rewrite Hs, !countStatus_updateSteps.
    rewrite countAt_processing, countAt_completed by lia.
    rewrite SimulatedFacts.length_steps.
    split; [destruct (decide _); [done|lia] | lia].
  - intros stage. destruct Hs as [[_ ->]|[H1 ->]].
    + intros [= <-]. done.
    + rewrite lookup_updateSteps. cbn. intros [= <-]. cbn.
      rewrite stepStatus_completed. lia.
  - unfold SimulatedProcessingPage.isComplete.
    rewrite SimulatedFacts.length_steps. fold step. intros Hc.
    apply Z.leb_le in Hc.
    destruct Hs as [[? _]|[_ ->]]; [lia|].
    rewrite lookup_updateSteps. cbn. f_equal.
    apply stepStatus_processing. lia.
Qed.

(** X10.  On the page with the simulated job, after [n] ticks of the timer
    the step is [min n 7]; the timer is still set after 7 ticks, when the
    page already says that the analysis is complete, and is cleared by the
    eighth tick. *)
Theorem X10_simulated_ticks (n : nat) :
  let s :=
    SimulatedProcessingPage.run SimulatedProcessingPage.initial
      (replicate n SimulatedProcessingPage.Tick) in
  SimulatedProcessingPage.currentStep s = Z.of_nat (Nat.min n 7)
  /\ (SimulatedProcessingPage.interval s = true <-> (n <= 7)%nat)
  /\ (SimulatedProcessingPage.isComplete s = true <-> (7 <= n)%nat).
Proof.
  intros s. destruct (SimulatedFacts.ticks n) as [Hc Hi].
  fold s in Hc, Hi.
  split; [done|]. split.
  - rewrite Hi. apply bool_decide_eq_true.
  - unfold SimulatedProcessingPage.isComplete.
    rewrite Hc, SimulatedFacts.length_steps, Z.leb_le. lia.
Qed.

(** * Further properties of the report page *)

Module ResultsPageMore.
Import JS ResultsPage Binary64Facts ResultsPageFacts ResultsPageMarkup.

Lemma Qfloor_le_iff (y : Q) (z : Z) :
  Qfloor y <= z <-> (y < inject_Z (z + 1))%Q.
Proof.
  split.
  - intros H. eapply Qlt_le_trans; [apply Qlt_floor|].
    rewrite <- Zle_Qle. lia.
  - intros H.
    assert (Hlt : (inject_Z (Qfloor y) < inject_Z (z + 1))%Q)
      by (eapply Qle_lt_trans; [apply Qfloor_le | exact H]).
    rewrite <- Zlt_Qlt in Hlt. lia.
Qed.

(** The value shown by [toFixed(1)] is at most [z / 10] exactly when the
    number is below [z / 10 + 1 / 20]. *)
Lemma shown_le_iff (x : Q) (z : Z) :
  0 <= z ->
  (parseFloat (toFixed1 x) <= inject_Z z * (1 # 10))%Q
  <-> (x < inject_Z z * (1 # 10) + (1 # 20))%Q.
Proof.
  intros Hz. unfold parseFloat, toFixed1, negative, tenths.
  unfold Qdiv. change (/ 10)%Q with (1 # 10)%Q.
  assert (Hz' : (0 <= inject_Z z)%Q) by (change 0%Q with (inject_Z 0); by rewrite <- Zle_Qle).
  destruct (Qle_bool 0 x) eqn:E; cbn [negb].
  - apply Qle_bool_iff in E.
    rewrite (Qfloor_comp _ (x * 10 + (1 # 2))%Q)
      by (rewrite (Qabs_pos x E); reflexivity).
    pose proof (Qfloor_le_iff (x * 10 + (1 # 2)) z) as Hf.
    rewrite inject_Z_plus in Hf. change (inject_Z 1) with 1%Q in Hf.
    rewrite Zle_Qle in Hf.
    set (n := inject_Z (Qfloor _)) in *.
    split; intros H.
    + assert (n <= inject_Z z)%Q by lra. apply Hf in H0. lra.
    + assert (x * 10 + (1 # 2) < inject_Z z + 1)%Q by lra. apply Hf in H0. lra.
  - apply le_false in E.
    pose proof (tenths_nonneg x) as Hn. unfold toFixed1, tenths in Hn.
    rewrite Zle_Qle in Hn. change (inject_Z 0) with 0%Q in Hn.
    set (n := inject_Z (Qfloor _)) in *.
    split; intros _; lra.
Qed.

(** ... and at least [- z / 10] exactly when the number is above
    [- z / 10 - 1 / 20]. *)
Lemma shown_ge_iff (x : Q) (z : Z) :
  0 <= z ->
  (- (inject_Z z * (1 # 10)) <= parseFloat (toFixed1 x))%Q
  <-> (- (inject_Z z * (1 # 10)) - (1 # 20) < x)%Q.
Proof.
  intros Hz. unfold parseFloat, toFixed1, negative, tenths.
  unfold Qdiv. change (/ 10)%Q with (1 # 10)%Q.
  assert (Hz' : (0 <= inject_Z z)%Q) by (change 0%Q with (inject_Z 0); by rewrite <- Zle_Qle).
  destruct (Qle_bool 0 x) eqn:E; cbn [negb].
  - apply Qle_bool_iff in E.
    pose proof (tenths_nonneg x) as Hn. unfold toFixed1, tenths in Hn.
    rewrite Zle_Qle in Hn. change (inject_Z 0) with 0%Q in Hn.
    set (n := inject_Z (Qfloor _)) in *.
    split; intros _; lra.
  - apply le_false in E.
    rewrite (Qfloor_comp _ (- x * 10 + (1 # 2))%Q)
      by (rewrite (Qabs_neg x) by lra; reflexivity).
    pose proof (Qfloor_le_iff (- x * 10 + (1 # 2)) z) as Hf.
    rewrite inject_Z_plus in Hf. change (inject_Z 1) with 1%Q in Hf.
    rewrite Zle_Qle in Hf.
    set (n := inject_Z (Qfloor _)) in *.
    split; intros H.
    + assert (n <= inject_Z z)%Q by lra. apply Hf in H0. lra.
    + assert (- x * 10 + (1 # 2) < inject_Z z + 1)%Q by lra. apply Hf in H0. lra.
Qed.

Lemma last6_app older recent :
  (6 <= length recent)%nat -> last6 (older ++ recent) = last6 recent.
Proof.
  intros H. rewrite !last6_drop, length_app.
  replace (length older + length recent - 6)%nat
    with (length older + (length recent - 6))%nat by lia.
  by rewrite drop_app_add.
Qed.

Lemma last6_last6 flows : last6 (last6 flows) = last6 flows.
Proof.
  rewrite (last6_drop (last6 flows)), length_last6.
  replace (Nat.min 6 (length flows) - 6)%nat with 0%nat by lia.
  reflexivity.
Qed.

(** The label by the two comparisons of [getDtiRisk]. *)
Lemma getDtiRisk_label (x : Binary64.Double) :
  (label (getDtiRisk x) = "Low risk" <-> Binary64.leb x 28%Q = true)
  /\ (label (getDtiRisk x) = "Moderate risk"
      <-> Binary64.leb x 28%Q = false /\ Binary64.leb x 36%Q = true)
  /\ (label (getDtiRisk x) = "High risk"
      <-> Binary64.leb x 28%Q = false /\ Binary64.leb x 36%Q = false).
Proof.
  unfold getDtiRisk.
  destruct (Binary64.leb x 28%Q), (Binary64.leb x 36%Q); cbn;
    repeat split; try done; by intros [? ?].
Qed.

(** Reading a numeral with one decimal back as a double keeps its order
    with an integer [c] up to 1000: the tenths next to [c] do not round
    to [c]. *)
Lemma round64_tenths_leb (d : Fixed1) (c : Z) :
  0 <= c <= 1000 ->
  Binary64.round64 (inject_Z c) = Binary64.Finite (inject_Z c) ->
  Binary64.leb (Binary64.round64 (parseFloat d)) (inject_Z c) = true
  <-> (parseFloat d <= inject_Z c)%Q.
Proof.
  intros Hc Hexact.
  set (k := if negative d then - tenths d else tenths d).
  assert (Hx : parseFloat d == inject_Z k * (1 # 10)).
  { unfold parseFloat, k, Qdiv. change (/ 10)%Q with (1 # 10)%Q.
    destruct (negative d); [rewrite inject_Z_opp|]; ring. }
  assert (Hc0 : (0 <= inject_Z c)%Q)
    by (change 0%Q with (inject_Z 0); rewrite <- Zle_Qle; lia).
  assert (Hc1 : (inject_Z c <= 1000)%Q)
    by (change 1000%Q with (inject_Z 1000); rewrite <- Zle_Qle; lia).
  set (x := parseFloat d) in *.
  pose proof (round64_sign x) as Hs.
  pose proof (round64_near x) as He.
  pose proof (round64_finite x) as Hf.
  pose proof pow2_1023_large as Hl.
  destruct (Z.lt_total k (10 * c)) as [Hk|[Hk|Hk]].
  - assert (Hle : (x <= inject_Z c - (1 # 10))%Q).
    { assert (k + 1 <= 10 * c) as Hk' by lia. rewrite Zle_Qle in Hk'.
      rewrite inject_Z_plus, inject_Z_mult in Hk'.
      change (inject_Z 10) with 10%Q in Hk'.
      change (inject_Z 1) with 1%Q in Hk'. lra. }
    split; [intros _; lra|intros _].
    destruct (Binary64.round64 x) as [q|s|] eqn:E; [| |done]; cbn.
    + apply Qle_bool_iff. destruct (Qlt_le_dec x 0) as [Hneg|Hpos].
      * destruct Hs as [_ Hs]. assert (q <= 0)%Q by (apply Hs; lra). lra.
      * specialize (He q eq_refl). rewrite (Qabs_pos x Hpos) in He. lra.
    + destruct Hs as [-> _]. apply isNegative_true.
      destruct (Qlt_le_dec x 0) as [Hneg|Hpos]; [done|].
      destruct Hf as [q Hq]; [rewrite (Qabs_pos x Hpos); lra|congruence].
  - assert (Heq : x == inject_Z c).
    { rewrite Hx, Hk, inject_Z_mult. change (inject_Z 10) with 10%Q. ring. }
    rewrite (round64_Qeq _ _ Heq), Hexact. cbn.
    split; [intros _; lra|intros _]. apply Qle_bool_iff. lra.
  - assert (Hge : (inject_Z c + (1 # 10) <= x)%Q).
    { assert (10 * c + 1 <= k) as Hk' by lia. rewrite Zle_Qle in Hk'.
      rewrite inject_Z_plus, inject_Z_mult in Hk'.
      change (inject_Z 10) with 10%Q in Hk'.
      change (inject_Z 1) with 1%Q in Hk'. lra. }
    split; [|intros ?; lra].
    destruct (Binary64.round64 x) as [q|s|] eqn:E; [| |done]; cbn.
    + intros Hq. apply Qle_bool_iff in Hq.
      specialize (He q eq_refl). rewrite (Qabs_pos x) in He by lra. lra.
    + destruct Hs as [-> _]. intros Hn. apply isNegative_true in Hn. lra.
Qed.

(** The printed percentage, read back, is at most [c] exactly when the
    double percentage is below [c + 1/20]. *)
Lemma shown_leb (p : Q) (c : Z) :
  0 <= c <= 1000 ->
  Binary64.round64 (inject_Z c) = Binary64.Finite (inject_Z c) ->
  Binary64.leb (Binary64.parseFloat (Binary64.toFixed p)) (inject_Z c) = true
  <-> (p < inject_Z c + (1 # 20))%Q.
Proof.
  intros Hc Hexact.
  assert (Hc0 : (0 <= inject_Z c)%Q)
    by (change 0%Q with (inject_Z 0); rewrite <- Zle_Qle; lia).
  assert (Hc1 : (inject_Z c <= 1000)%Q)
    by (change 1000%Q with (inject_Z 1000); rewrite <- Zle_Qle; lia).
  assert (Hbig : (2000 < inject_Z (10 ^ 21))%Q) by done.
  destruct (Qlt_le_dec (Qabs p) (inject_Z (10 ^ 21))) as [Hp|Hp].
  - rewrite (toFixed_digits p Hp). cbn [Binary64.parseFloat].
    rewrite (round64_tenths_leb _ c Hc Hexact).
    pose proof (shown_le_iff p (10 * c)) as H.
    rewrite inject_Z_mult in H. change (inject_Z 10) with 10%Q in H.
    destruct H as [H1 H2]; [lia|]. split; intros H.
    + assert (parseFloat (toFixed1 p) <= 10 * inject_Z c * (1 # 10))%Q by lra.
      apply H1 in H0. lra.
    + assert (p < 10 * inject_Z c * (1 # 10) + (1 # 20))%Q by lra.
      apply H2 in H0. lra.
  - rewrite (toFixed_exponential p Hp).
    cbn [Binary64.parseFloat Binary64.leb]. rewrite Qle_bool_iff.
    destruct (Qlt_le_dec p 0) as [Hneg|Hpos].
    + split; intros _; lra.
    + rewrite (Qabs_pos p Hpos) in Hp. split; intros ?; lra.
Qed.

(** With a sum in the normal range the net-flow percentage stays within
    100.05 in size. *)
Lemma netFlow_double_bounded (net dep wd : number) :
  (0 <= dep)%Q -> (0 <= wd)%Q ->
  (- (dep + wd) <= net)%Q -> (net <= dep + wd)%Q ->
  (dep + wd == 0 \/ Binary64.pow2 (-1022) <= dep + wd)%Q ->
  exists p : Q,
    Binary64.mul (Binary64.div net (netFlowDenominator dep wd)) 100%Q
    = Binary64.Finite p
    /\ (- (10004 # 100) <= p)%Q /\ (p <= 10004 # 100)%Q.
Proof.
  intros Hd Hw Hlo Hhi [Hz|Hn].
  - rewrite (netFlowDenominator_zero_sum _ _ Hz).
    assert (E : (net / 1 == 0)%Q).
    { assert (net == 0)%Q by lra. unfold Qdiv. rewrite H. reflexivity. }
    cbn [Binary64.div]. change (Qeq_bool 1 0) with false. cbv iota.
    rewrite (round64_zero _ E). cbn [Binary64.mul].
    exists 0%Q. split; [by apply round64_zero|]. split; lra.
  - pose proof (pow2_pos (-1022)) as Hp.
    assert (H1075 : (Binary64.pow2 (-1075)
                     == Binary64.pow2 (-1022) * (1 # 9007199254740992))%Q)
      by reflexivity.
    set (S := (dep + wd)%Q) in *.
    unfold netFlowDenominator. cbn [Binary64.add]. fold S.
    pose proof (round64_sign S) as Hs.
    pose proof (round64_error S) as He.
    destruct (Binary64.round64 S) as [sigma|s|] eqn:ES; [| |done].
    + specialize (He sigma eq_refl). unfold Binary64.roundingError in He.
      rewrite pow2_53, (Qabs_pos S) in He by lra.
      apply Qabs_Qle_condition in He.
      assert (Hsig : (0 < sigma)%Q) by lra.
      unfold Binary64.orElse.
      destruct (Qeq_bool sigma 0) eqn:E0.
      { apply Qeq_bool_iff in E0. lra. }
      cbn [Binary64.div]. rewrite E0.
      set (t := (net / sigma)%Q).
      assert (Ht1 : (t <= 1000001 # 1000000)%Q)
        by (apply Qle_shift_div_r; [done|lra]).
      assert (Ht2 : (- (1000001 # 1000000) <= t)%Q)
        by (apply Qle_shift_div_l; [done|lra]).
      assert (Ht : (Qabs t <= 1000001 # 1000000)%Q)
        by (by apply Qabs_Qle_condition).
      pose proof (Qabs_nonneg t) as Ht0.
      pose proof pow2_1023_large as Hl.
      destruct (round64_finite t) as [q Hq]; [lra|]. rewrite Hq.
      apply round64_near in Hq.
      cbn [Binary64.mul].
      assert (Hq1 : (Qabs (q * 100) <= 10002 # 100)%Q)
        by (apply Qabs_Qle_condition; split; lra).
      pose proof (Qabs_nonneg (q * 100)) as Hq0.
      destruct (round64_finite (q * 100)) as [p Hp']; [lra|].
      exists p. split; [done|]. apply round64_near in Hp'. split; lra.
    + unfold Binary64.orElse. cbn [Binary64.div Binary64.mul].
      exists 0%Q. split; [by apply round64_zero|]. split; lra.
Qed.

Lemma exact_28_36 :
  Binary64.round64 (inject_Z 28) = Binary64.Finite (inject_Z 28)
  /\ Binary64.round64 (inject_Z 36) = Binary64.Finite (inject_Z 36).
Proof. split; by vm_compute. Qed.

End ResultsPageMore.

Import ResultsPageMarkup ResultsPageMore.

(** X11.  The report page sends the user home exactly when there is no
    payload or the payload has no [session_id] or an empty one, and it never
    navigates anywhere else. *)
Theorem X11_report_page_outcomes (location_state : option GeminiResult) :
  (ResultsPage location_state = Navigated "/"
   <-> location_state = None
       \/ (exists payload,
             location_state = Some payload
             /\ (session_id payload = None \/ session_id payload = Some "")))
  /\ (forall path, ResultsPage location_state = Navigated path -> path = "/").
Proof.
  unfold ResultsPage, read_monthly_flows.
  destruct location_state as [payload|]; cbv zeta.
  2: change (default emptyResult None) with emptyResult;
     cbn [emptyResult session_id].
  1: change (default emptyResult (Some payload)) with payload.
  - destruct (session_id payload) as [[|c sid]|] eqn:Hs; cbv beta iota.
    + split; [split; [intros _; right; eauto | done]|].
      by intros ? [= <-].
    + destruct (analysis_summary payload) as [summary|] eqn:Ha; cbv beta iota.
      * split; [split; [done|]|done].
        intros [?|(p & [= <-] & [?|?])]; congruence.
      * split; [split; [done|]|done].
        intros [?|(p & [= <-] & [?|?])]; congruence.
    + split; [split; [intros _; right; eauto | done]|].
      by intros ? [= <-].
  - cbv beta iota. split; [split; [by left | done]|].
    by intros ? [= <-].
Qed.

(** X12.  Because the risk is taken from the percentage as printed with one
    decimal and read back, the thresholds on the double
    [debt_to_income * 100] lie one twentieth higher: the label is 'Low risk'
    exactly below 28.05, 'Moderate risk' exactly from 28.05 to below 36.05,
    and 'High risk' exactly from 36.05 on; an infinite product is 'High
    risk' when positive and 'Low risk' when negative. *)
Theorem X12_risk_thresholds_after_rounding (debt_to_income : number) :
  let product := mul debt_to_income 100%Q in
  (forall p : Q,
     product = Finite p ->
     (label (dtiRisk debt_to_income) = "Low risk" <-> (p < 2805 # 100)%Q)
     /\ (label (dtiRisk debt_to_income) = "Moderate risk"
         <-> (2805 # 100 <= p)%Q /\ (p < 3605 # 100)%Q)
     /\ (label (dtiRisk debt_to_income) = "High risk"
         <-> (3605 # 100 <= p)%Q))
  /\ (product = Infinity false ->
      label (dtiRisk debt_to_income) = "High risk")
  /\ (product = Infinity true ->
      label (dtiRisk debt_to_income) = "Low risk").
Proof.
  intros product. unfold dtiRisk, dtiRatio. fold product.
  split; [|split; by intros ->].
  intros p ->.
  destruct (getDtiRisk_label (parseFloat (toFixed p))) as (-> & -> & ->).
  destruct exact_28_36 as [E28 E36].
  pose proof (shown_leb p 28 ltac:(lia) E28) as H28.
  pose proof (shown_leb p 36 ltac:(lia) E36) as H36.
  change (inject_Z 28) with 28%Q in H28. change (inject_Z 36) with 36%Q in H36.
  destruct (leb (parseFloat (toFixed p)) 28%Q) eqn:B28,
           (leb (parseFloat (toFixed p)) 36%Q) eqn:B36.
  - assert (p < 28 + (1 # 20))%Q by (by apply H28).
    assert (p < 36 + (1 # 20))%Q by (by apply H36).
    clear H28 H36 E28 E36 B28 B36. intuition (discriminate || lra).
  - assert (p < 28 + (1 # 20))%Q by (by apply H28).
    assert (~ (p < 36 + (1 # 20))%Q) by (intros Hp; by apply H36 in Hp).
    lra.
  - assert (p < 36 + (1 # 20))%Q by (by apply H36).
    assert (~ (p < 28 + (1 # 20))%Q) by (intros Hp; by apply H28 in Hp).
    clear H28 H36 E28 E36 B28 B36. intuition (discriminate || lra).
  - assert (~ (p < 28 + (1 # 20))%Q) by (intros Hp; by apply H28 in Hp).
    assert (~ (p < 36 + (1 # 20))%Q) by (intros Hp; by apply H36 in Hp).
    clear H28 H36 E28 E36 B28 B36. intuition (discriminate || lra).
Qed.

(** X13.  Both classifications are monotone: a larger ratio never gets a
    lower risk label than a smaller one, and a larger score never gets a
    worse verdict than a smaller one. *)
Theorem X13_buckets_are_monotone (low high : number) :
  (low <= high)%Q ->
  (label (getDtiRisk high) = "Low risk" -> label (getDtiRisk low) = "Low risk")
  /\ (label (getDtiRisk low) = "High risk"
      -> label (getDtiRisk high) = "High risk")
  /\ (label (getDtiRisk high) = "Moderate risk"
      -> label (getDtiRisk low) <> "High risk")
  /\ (label (getLoanVerdict low) = "Likely Approved"
      -> label (getLoanVerdict high) = "Likely Approved")
  /\ (label (getLoanVerdict high) = "High Risk"
      -> label (getLoanVerdict low) = "High Risk")
  /\ (label (getLoanVerdict low) = "Requires Review"
      -> label (getLoanVerdict high) <> "High Risk").
Proof.
  intros H.
  rewrite !getDtiRisk_low, !getDtiRisk_high, !getDtiRisk_moderate.
  rewrite !getLoanVerdict_approved, !getLoanVerdict_high,
    !getLoanVerdict_review.
  repeat split; intros; lra.
Qed.

(** X13, for the ratios 20 and 25. *)
Lemma X13_buckets_witness :
  label (getDtiRisk 20%Q) = "Low risk".
Proof.
  apply (X13_buckets_are_monotone 20%Q 25%Q).
  - vm_compute. discriminate.
  - reflexivity.
Defined.

(** X14.  Months older than the last six have no influence on the charts:
    with at least six recent months, putting any older months in front
    changes neither series; and cutting to the last six twice is cutting
    once. *)
Theorem X14_older_months_do_not_matter
    (older recent : list (string * MonthlyFlow)) :
  (6 <= length recent)%nat ->
  last6 (older ++ recent) = last6 recent
  /\ monthlyData (older ++ recent) = monthlyData recent
  /\ balanceData (older ++ recent) = balanceData recent
  /\ length (monthlyData (older ++ recent)) = 6%nat
  /\ last6 (last6 (older ++ recent)) = last6 recent.
Proof.
  intros H. unfold monthlyData, balanceData.
  rewrite last6_last6, (last6_app older recent H).
  repeat split; try done.
  rewrite length_fmap, length_last6. lia.
Qed.

(** X14, on the eight sample months with two older ones in front. *)
Lemma X14_older_months_witness :
  monthlyData
    ([("2023-11", mkFlow None None None None);
      ("2023-12", mkFlow (Some 1%Q) (Some 2%Q) (Some (-1)%Q) None)]
     ++ eightMonths)
  = monthlyData eightMonths.
Proof.
  apply (X14_older_months_do_not_matter
           [("2023-11", mkFlow None None None None);
            ("2023-12", mkFlow (Some 1%Q) (Some 2%Q) (Some (-1)%Q) None)]
           eightMonths).
  simpl. lia.
Defined.

(** X15.  The flagged-statements card shows the empty state exactly when
    there is no issue; otherwise it has one row per issue, in the order of
    the payload, the row of the issue at position [i] keyed by [i]. *)
Theorem X15_issues_card_rows (issues : list DataIssue) :
  (issuesCard issues = NoFlaggedStatements <-> issues = [])
  /\ (issues <> [] ->
      exists rows,
        issuesCard issues = IssueRows rows
        /\ snd <$> rows = issues
        /\ fst <$> rows = seq 0 (length issues)
        /\ forall i issue, issues !! i = Some issue -> rows !! i = Some (i, issue)).
Proof.
  unfold issuesCard. split.
  - destruct issues; simpl; split; done.
  - intros Hne. destruct (decide (0 < length issues)%nat) as [Hl|Hl].
    + eexists. split; [reflexivity|]. split; [|split].
      * rewrite fmap_imap. apply list_eq. intros i.
        rewrite list_lookup_imap. by destruct (issues !! i).
      * rewrite fmap_imap. apply list_eq. intros i.
        rewrite list_lookup_imap.
        destruct (issues !! i) as [x|] eqn:E; simpl.
        -- apply lookup_lt_Some in E. by rewrite lookup_seq_lt.
        -- apply lookup_ge_None in E. by rewrite lookup_seq_ge.
      * intros i issue E. by rewrite list_lookup_imap, E.
    + destruct issues; [done | simpl in Hl; lia].
Qed.

(** X15, for a single issue. *)
Lemma X15_issues_card_witness :
  exists rows,
    issuesCard [mkIssue (Some "Duplicate entry") None] = IssueRows rows
    /\ snd <$> rows = [mkIssue (Some "Duplicate entry") None]
    /\ fst <$> rows = seq 0 1
    /\ forall i issue,
         [mkIssue (Some "Duplicate entry") None] !! i = Some issue ->
         rows !! i = Some (i, issue).
Proof.
  apply (X15_issues_card_rows [mkIssue (Some "Duplicate entry") None]).
  discriminate.
Defined.

(** X16.  A slice of the pie always has a fill, taken from the four colours
    in rotation, while the dot of its legend row has a colour only for the
    first four categories: there the two agree, and from the fifth category
    on the legend dot has none. *)
Theorem X16_slice_and_legend_colours (index : nat) :
  is_Some (cellFill index)
  /\ cellFill (index + 4) = cellFill index
  /\ ((index < 4)%nat -> legendColor index = cellFill index)
  /\ ((4 <= index)%nat -> legendColor index = None)
  /\ (is_Some (legendColor index) <-> (index < 4)%nat).
Proof.
  unfold cellFill, legendColor. change (length COLORS) with 4%nat.
  assert (Hm : (index mod 4 < 4)%nat) by (apply Nat.mod_upper_bound; lia).
  split; [apply lookup_lt_is_Some; exact Hm|].
  split.
  { f_equal. replace (index + 4)%nat with (index + 1 * 4)%nat by lia.
    apply Nat.Div0.mod_add. }
  split; [intros H; by rewrite Nat.mod_small|].
  split; [intros H; by apply lookup_ge_None|].
  rewrite lookup_lt_is_Some. reflexivity.
Qed.

(** X18.  When the deposits and the withdrawals are not negative, the net
    cash flow is not larger in size than their sum (as it is when it is
    their difference) and that sum is zero or in the normal range of
    doubles, the percentage under the net cash flow is printed with
    positional digits and lies between -100.0 and 100.0. *)
Theorem X18_net_flow_percent_within_100
    (net_cash_flow total_deposits total_withdrawals : number) :
  (0 <= total_deposits)%Q ->
  (0 <= total_withdrawals)%Q ->
  (- (total_deposits + total_withdrawals) <= net_cash_flow)%Q ->
  (net_cash_flow <= total_deposits + total_withdrawals)%Q ->
  (total_deposits + total_withdrawals == 0
   \/ pow2 (-1022) <= total_deposits + total_withdrawals)%Q ->
  exists d : Fixed1,
    netFlowPercent net_cash_flow total_deposits total_withdrawals = Digits d
    /\ 0 <= tenths d <= 1000
    /\ (- 100 <= JS.parseFloat d)%Q
    /\ (JS.parseFloat d <= 100)%Q.
Proof.
  intros Hd Hw Hlo Hhi Hn.
  destruct (netFlow_double_bounded _ _ _ Hd Hw Hlo Hhi Hn)
    as (p & Hp & Hp1 & Hp2).
  unfold netFlowPercent. rewrite Hp.
  assert (Hbig : (2000 < inject_Z (10 ^ 21))%Q) by done.
  assert (Habs : (Qabs p <= 10004 # 100)%Q)
    by (by apply Qabs_Qle_condition).
  rewrite toFixed_digits by lra.
  exists (toFixed1 p). split; [done|].
  pose proof (shown_le_iff p 1000) as [_ A]; [lia|].
  pose proof (shown_ge_iff p 1000) as [_ B]; [lia|].
  change (inject_Z 1000) with 1000%Q in A, B.
  assert (HA : (JS.parseFloat (toFixed1 p) <= 1000 * (1 # 10))%Q)
    by (apply A; lra).
  assert (HB : (- (1000 * (1 # 10)) <= JS.parseFloat (toFixed1 p))%Q)
    by (apply B; lra).
  split; [|split; lra].
  destruct (tenths_spec p) as (H0 & _ & H2). split; [exact H0|].
  assert (Hlt : (inject_Z (tenths (toFixed1 p)) < inject_Z 1001)%Q).
  { change (inject_Z 1001) with 1001%Q. lra. }
  rewrite <- Zlt_Qlt in Hlt. lia.
Qed.

(** X18, with 23 net of 50 in and 30 out: 28.7. *)
Lemma X18_net_flow_percent_witness :
  exists d : Fixed1,
    netFlowPercent 23%Q 50%Q 30%Q = Digits d
    /\ 0 <= tenths d <= 1000
    /\ (- 100 <= JS.parseFloat d)%Q
    /\ (JS.parseFloat d <= 100)%Q.
Proof.
  apply (X18_net_flow_percent_within_100 23%Q 50%Q 30%Q).
  - by vm_compute.
  - by vm_compute.
  - by vm_compute.
  - by vm_compute.
  - right. apply Qle_bool_iff. by vm_compute.
Defined.

(** * Properties of the entry page *)

Module IndexPageFacts.
Import JS Binary64 Binary64Facts IndexPage.

Lemma point_not_digit : isDigit "."%char = false.
Proof. reflexivity. Qed.

Lemma append_nil_l (r : string) : "" +:+ r = r.
Proof. reflexivity. Qed.

Lemma append_cons c (a r : string) : String c a +:+ r = String c (a +:+ r).
Proof. reflexivity. Qed.

Lemma append_nil_r (a : string) : a +:+ "" = a.
Proof. induction a as [|c a IH]; [done|]. by rewrite append_cons, IH. Qed.

(** [readDigits] takes a prefix of digits and stops in front of a character
    that is no digit. *)
Lemma readDigits_split s :
  exists a, allDigits a = true /\ s = a +:+ snd (readDigits s).
Proof.
  induction s as [|c s IH]; [by exists ""|].
  cbn [readDigits]. destruct (isDigit c) eqn:E.
  - destruct IH as (a & Ha & Hs). destruct (readDigits s) as [ds r].
    exists (String c a). cbn [allDigits snd String.append] in *.
    rewrite E, Ha. split; [done|]. rewrite Hs. reflexivity.
  - by exists "".
Qed.

Lemma readDigits_stops s c r :
  snd (readDigits s) = String c r -> isDigit c = false.
Proof.
  induction s as [|c' s IH]; [done|].
  cbn [readDigits]. destruct (isDigit c') eqn:E.
  - destruct (readDigits s) as [ds r']. cbn in *. exact IH.
  - cbn. by intros [= -> ->].
Qed.

Lemma readDigits_app a r :
  allDigits a = true -> stopsDigits r ->
  snd (readDigits (a +:+ r)) = r
  /\ fst (readDigits (a +:+ r)) = fst (readDigits a).
Proof.
  intros Ha Hr. induction a as [|c a IH].
  - rewrite append_nil_l. destruct r as [|c r]; [done|].
    cbn in *. by rewrite Hr.
  - cbn in Ha. apply andb_true_iff in Ha as [Hc Ha].
    rewrite append_cons. cbn [readDigits]. rewrite Hc.
    destruct (IH Ha) as [IH1 IH2].
    destruct (readDigits (a +:+ r)) as [ds r'].
    destruct (readDigits a) as [ds' r'']. cbn in *. by subst.
Qed.

Lemma readDigits_all a :
  allDigits a = true -> snd (readDigits a) = "".
Proof.
  intros Ha. destruct (readDigits_app a "" Ha I) as [H _].
  by rewrite append_nil_r in H.
Qed.

Lemma allDigits_rest s : snd (readDigits s) = "" -> allDigits s = true.
Proof.
  intros H. destruct (readDigits_split s) as (a & Ha & Hs).
  rewrite H, append_nil_r in Hs. by subst.
Qed.

(** The strings that the pattern accepts. *)
Lemma amountPattern_test_spec value :
  amountPattern_test value = true
  <-> allDigits value = true
      \/ exists a b, allDigits a = true /\ allDigits b = true
                     /\ value = a +:+ "." +:+ b.
Proof.
  unfold amountPattern_test. split.
  - intros H.
    destruct (readDigits_split value) as (a & Ha & Hs).
    destruct (snd (readDigits value)) as [|c r] eqn:E.
    + left. by apply allDigits_rest.
    + pose proof (readDigits_stops _ _ _ E) as Hc.
      destruct (decide (c = "."%char)) as [->|Hne].
      * cbn [skipPoint] in H. right. exists a, r. split; [done|].
        split; [|done]. apply allDigits_rest.
        by destruct (snd (readDigits r)).
      * assert (Hskip : skipPoint (String c r) = String c r).
        { cbn. destruct c as [[] [] [] [] [] [] [] []]; try done. }
        rewrite Hskip in H. cbn [readDigits] in H. rewrite Hc in H. done.
  - intros [Ha|(a & b & Ha & Hb & ->)].
    + by rewrite (readDigits_all _ Ha).
    + destruct (readDigits_app a ("." +:+ b) Ha) as [-> _]; [done|].
      rewrite append_cons, append_nil_l. cbn [skipPoint].
      by rewrite (readDigits_all _ Hb).
Qed.

(** The digit values are within 0..9. *)
Lemma readDigits_range s :
  Forall (fun d => 0 <= d <= 9) (fst (readDigits s)).
Proof.
  induction s as [|c s IH]; [constructor|].
  cbn [readDigits]. destruct (isDigit c) eqn:E; [|constructor].
  destruct (readDigits s) as [ds r]. cbn in *. constructor; [|done].
  unfold isDigit in E. apply andb_true_iff in E as [E1 E2].
  apply N.leb_le in E1, E2. lia.
Qed.

Lemma foldl_decimal ds acc :
  0 <= acc -> Forall (fun d => 0 <= d <= 9) ds ->
  0 <= foldl (fun acc d => 10 * acc + d) acc ds
  /\ (0 < foldl (fun acc d => 10 * acc + d) acc ds
      <-> 0 < acc \/ Exists (fun d => 0 < d) ds).
Proof.
  revert acc. induction ds as [|d ds IH]; intros acc Hacc Hds.
  - cbn. split; [done|]. split; [by left|]. intros [?|H]; [done|].
    by apply Exists_nil in H.
  - inversion Hds as [|? ? Hd Hds']; subst. cbn beta in Hd. cbn [foldl].
    destruct (IH (10 * acc + d)) as [IH1 IH2]; [lia | done|].
    split; [done|]. rewrite IH2, Exists_cons. intuition lia.
Qed.

Lemma decimalValue_pos ds :
  Forall (fun d => 0 <= d <= 9) ds ->
  0 <= decimalValue ds
  /\ (0 < decimalValue ds <-> Exists (fun d => 0 < d) ds).
Proof.
  intros H. destruct (foldl_decimal ds 0) as [H1 H2]; [lia | done|].
  split; [done|]. unfold decimalValue. rewrite H2. split; [|by right].
  intros [?|?]; [lia | done].
Qed.

(** The digits of a string of digits: one of them is positive exactly when
    the string has a character from 1 to 9. *)
Lemma readDigits_nonzero a :
  allDigits a = true ->
  Exists (fun d => 0 < d) (fst (readDigits a)) <-> hasNonzeroDigit a = true.
Proof.
  induction a as [|c a IH]; intros Ha.
  - cbn. split; [|done]. intros H. by apply Exists_nil in H.
  - cbn in Ha. apply andb_true_iff in Ha as [Hc Ha].
    cbn [readDigits hasNonzeroDigit]. rewrite Hc.
    specialize (IH Ha). destruct (readDigits a) as [ds r]. cbn in *.
    rewrite Exists_cons, IH, orb_true_iff.
    unfold isDigit in Hc. apply andb_true_iff in Hc as [E1 E2].
    apply N.leb_le in E1, E2.
    destruct (N.eqb_spec (N_of_ascii c) 48) as [E|E]; cbn; split;
      intros [?|?]; auto; try lia; try done.
Qed.

Lemma hasNonzeroDigit_app a b :
  hasNonzeroDigit (a +:+ b) = hasNonzeroDigit a || hasNonzeroDigit b.
Proof.
  induction a as [|c a IH]; [done|].
  rewrite append_cons. cbn [hasNonzeroDigit]. rewrite IH.
  by rewrite orb_assoc.
Qed.

(** When the decimal that a string spells is positive. *)
Lemma positive_sum (i f p : Z) :
  0 <= i -> 0 <= f -> 0 < p ->
  (0 < inject_Z i + inject_Z f / inject_Z p)%Q <-> 0 < i \/ 0 < f.
Proof.
  intros Hi Hf Hp.
  assert (Hp' : (0 < inject_Z p)%Q)
    by (change 0%Q with (inject_Z 0); by rewrite <- Zlt_Qlt).
  assert (Hi' : (0 <= inject_Z i)%Q)
    by (change 0%Q with (inject_Z 0); by rewrite <- Zle_Qle).
  assert (Hf' : (0 <= inject_Z f)%Q)
    by (change 0%Q with (inject_Z 0); by rewrite <- Zle_Qle).
  assert (Hq : (0 <= inject_Z f / inject_Z p)%Q)
    by (apply Qle_shift_div_l; [done | lra]).
  split.
  - intros H. destruct (decide (0 < i)) as [?|Hn]; [by left|]. right.
    assert (i = 0) as -> by lia. change (inject_Z 0) with 0%Q in H.
    destruct (decide (0 < f)) as [?|Hn']; [done|].
    assert (f = 0) as -> by lia. exfalso.
    assert (E : (inject_Z 0 / inject_Z p == 0)%Q)
      by (change (inject_Z 0) with 0%Q; unfold Qdiv; ring).
    rewrite E in H. lra.
  - intros [H|H].
    + assert ((0 < inject_Z i)%Q)
        by (change 0%Q with (inject_Z 0); by rewrite <- Zlt_Qlt).
      lra.
    + assert (Hf'' : (0 < inject_Z f)%Q)
        by (change 0%Q with (inject_Z 0); by rewrite <- Zlt_Qlt).
      assert ((0 < inject_Z f / inject_Z p)%Q)
        by (apply Qlt_shift_div_l; [done | lra]).
      lra.
Qed.

Lemma mathematicalValue_digits (int frac : list Z) :
  Forall (fun d => 0 <= d <= 9) int ->
  Forall (fun d => 0 <= d <= 9) frac ->
  (exists v,
     match int, frac with
     | [], [] => None
     | _, _ =>
         Some (inject_Z (decimalValue int)
               + inject_Z (decimalValue frac)
                 / inject_Z (10 ^ Z.of_nat (length frac)))%Q
     end = Some v /\ (0 < v)%Q)
  <-> Exists (fun d => 0 < d) int \/ Exists (fun d => 0 < d) frac.
Proof.
  intros Hi Hf.
  destruct (decimalValue_pos int Hi) as [Hi0 Hi1].
  destruct (decimalValue_pos frac Hf) as [Hf0 Hf1].
  assert (Hp : 0 < 10 ^ Z.of_nat (length frac)) by (apply Z.pow_pos_nonneg; lia).
  pose proof (positive_sum _ _ _ Hi0 Hf0 Hp) as Hsum.
  rewrite Hi1, Hf1 in Hsum.
  destruct int as [|d int], frac as [|d' frac].
  - split; [by intros (v & ? & _)|].
    intros [H|H]; by apply Exists_nil in H.
  - rewrite <- Hsum. split; [by intros (v & [= <-] & ?) | eauto].
  - rewrite <- Hsum. split; [by intros (v & [= <-] & ?) | eauto].
  - rewrite <- Hsum. split; [by intros (v & [= <-] & ?) | eauto].
Qed.

(** On a string that the field accepts, the decimal spelled is positive
    exactly when one of the characters is a digit from 1 to 9. *)
Lemma mathematicalValue_nonzero amount :
  amountPattern_test amount = true ->
  (exists v, mathematicalValue amount = Some v /\ (0 < v)%Q)
  <-> hasNonzeroDigit amount = true.
Proof.
  intros Ht. apply amountPattern_test_spec in Ht.
  unfold mathematicalValue.
  destruct Ht as [Ha|(a & b & Ha & Hb & ->)].
  - pose proof (readDigits_all _ Ha) as Hr.
    pose proof (readDigits_range amount) as Hrange.
    pose proof (readDigits_nonzero _ Ha) as Hnz.
    destruct (readDigits amount) as [int rest]. cbn in Hr, Hrange, Hnz.
    subst rest.
    rewrite (mathematicalValue_digits int []); [|done | constructor].
    rewrite <- Hnz. split; [|by left].
    intros [?|H]; [done | by apply Exists_nil in H].
  - destruct (readDigits_app a ("." +:+ b) Ha) as [Hr Hi]; [done|].
    pose proof (readDigits_range a) as Hra.
    pose proof (readDigits_range b) as Hrb.
    pose proof (readDigits_nonzero _ Ha) as Hna.
    pose proof (readDigits_nonzero _ Hb) as Hnb.
    destruct (readDigits (a +:+ "." +:+ b)) as [int rest].
    cbn [fst snd] in Hr, Hi. subst rest int.
    change ("." +:+ b) with (String "."%char b).
    rewrite (mathematicalValue_digits _ _ Hra Hrb), Hna, Hnb.
    rewrite !hasNonzeroDigit_app.
    cbn [hasNonzeroDigit]. rewrite point_not_digit. cbn [andb orb].
    by rewrite orb_true_iff.
Qed.

(** The digits read from a string are not more than its characters. *)
Lemma readDigits_length s :
  (length (fst (readDigits s)) <= String.length s)%nat.
Proof.
  induction s as [|c s IH]; [done|].
  cbn [readDigits]. destruct (isDigit c); [|cbn; lia].
  destruct (readDigits s) as [ds r]. cbn in *. lia.
Qed.

Lemma readDigits_rest_length s :
  (String.length (snd (readDigits s)) <= String.length s)%nat.
Proof.
  induction s as [|c s IH]; [done|].
  cbn [readDigits]. destruct (isDigit c); [|done].
  destruct (readDigits s) as [ds r]. cbn in *. lia.
Qed.

(** A positive decimal of [n] characters is at least [10^-(n-1)]. *)
Lemma mathematicalValue_lower amount v :
  mathematicalValue amount = Some v -> (0 < v)%Q ->
  (1 / inject_Z (10 ^ Z.of_nat (String.length amount - 1)) <= v)%Q.
Proof.
  unfold mathematicalValue.
  pose proof (readDigits_range amount) as Hi.
  pose proof (readDigits_rest_length amount) as Hlen.
  destruct (readDigits amount) as [int rest]. cbn [fst snd] in Hi, Hlen.
  set (frac := match rest with
               | String "."%char rest' => fst (readDigits rest')
               | _ => []
               end).
  assert (Hf : Forall (fun d => 0 <= d <= 9) frac).
  { unfold frac. destruct rest as [|c rest']; [constructor|].
    destruct c as [[] [] [] [] [] [] [] []]; try constructor.
    apply readDigits_range. }
  assert (Hk : (length frac <= String.length amount - 1)%nat).
  { unfold frac. destruct rest as [|c rest']; [cbn; lia|].
    destruct c as [[] [] [] [] [] [] [] []]; try (cbn; lia).
    pose proof (readDigits_length rest'). cbn in Hlen. lia. }
  destruct (decimalValue_pos int Hi) as [Hi0 _].
  destruct (decimalValue_pos frac Hf) as [Hf0 _].
  set (n := (String.length amount - 1)%nat) in *.
  set (i := decimalValue int) in *. set (f := decimalValue frac) in *.
  set (k := length frac) in *.
  assert (Hpk : 0 < 10 ^ Z.of_nat k) by (apply Z.pow_pos_nonneg; lia).
  assert (Hpn : 0 < 10 ^ Z.of_nat n) by (apply Z.pow_pos_nonneg; lia).
  assert (Hkn : 10 ^ Z.of_nat k <= 10 ^ Z.of_nat n)
    by (apply Z.pow_le_mono_r; lia).
  assert (Hpk' : (0 < inject_Z (10 ^ Z.of_nat k))%Q)
    by (change 0%Q with (inject_Z 0); by rewrite <- Zlt_Qlt).
  assert (Hpn' : (0 < inject_Z (10 ^ Z.of_nat n))%Q)
    by (change 0%Q with (inject_Z 0); by rewrite <- Zlt_Qlt).
  assert (Hkn' : (inject_Z (10 ^ Z.of_nat k) <= inject_Z (10 ^ Z.of_nat n))%Q)
    by (by rewrite <- Zle_Qle).
  assert (H1 : (1 <= inject_Z (10 ^ Z.of_nat n))%Q).
  { change 1%Q with (inject_Z 1). rewrite <- Zle_Qle. lia. }
  assert (Hsmall : (1 / inject_Z (10 ^ Z.of_nat n) <= 1)%Q)
    by (apply Qle_shift_div_r; [done|lra]).
  assert (Hfq : (0 <= inject_Z f / inject_Z (10 ^ Z.of_nat k))%Q).
  { apply Qle_shift_div_l; [done|].
    assert (0 <= inject_Z f)%Q
      by (change 0%Q with (inject_Z 0); by rewrite <- Zle_Qle).
    lra. }
  intros Hv Hpos.
  assert (Ev : v = (inject_Z i + inject_Z f / inject_Z (10 ^ Z.of_nat k))%Q).
  { destruct int, frac; try done; by injection Hv as <-. }
  subst v. apply positive_sum in Hpos as [Hp|Hp]; [| |done..].
  - assert (1 <= inject_Z i)%Q.
    { change 1%Q with (inject_Z 1). rewrite <- Zle_Qle. lia. }
    lra.
  - assert (Hf1 : (1 <= inject_Z f)%Q).
    { change 1%Q with (inject_Z 1). rewrite <- Zle_Qle. lia. }
    assert (Hi1 : (0 <= inject_Z i)%Q)
      by (change 0%Q with (inject_Z 0); by rewrite <- Zle_Qle).
    assert (1 / inject_Z (10 ^ Z.of_nat n)
            <= inject_Z f / inject_Z (10 ^ Z.of_nat k))%Q; [|lra].
    apply Qle_shift_div_l; [done|].
    assert (E : (1 / inject_Z (10 ^ Z.of_nat n) * inject_Z (10 ^ Z.of_nat k)
                 == inject_Z (10 ^ Z.of_nat k) / inject_Z (10 ^ Z.of_nat n))%Q)
      by (field; lra).
    rewrite E.
    assert (inject_Z (10 ^ Z.of_nat k) / inject_Z (10 ^ Z.of_nat n) <= 1)%Q
      by (apply Qle_shift_div_r; [done|lra]).
    lra.
Qed.

(** The double of the amount is positive only when the amount is, and it is
    positive when the amount is positive and has at most 323 characters. *)
Lemma positiveAmount_exact amount :
  positiveAmount amount ->
  exists v, mathematicalValue amount = Some v /\ (0 < v)%Q.
Proof.
  unfold positiveAmount, parseFloat.
  destruct (mathematicalValue amount) as [v|]; [|by cbn].
  intros H. exists v. split; [done|]. by apply round64_pos_inv.
Qed.

Lemma least_double_below : (pow2 (-1074) <= 1 / inject_Z (10 ^ 322))%Q.
Proof. apply Qle_bool_iff. by vm_compute. Qed.

Lemma positiveAmount_short amount v :
  mathematicalValue amount = Some v -> (0 < v)%Q ->
  (String.length amount <= 323)%nat ->
  positiveAmount amount.
Proof.
  intros Hv Hpos Hlen. unfold positiveAmount, parseFloat. rewrite Hv.
  apply round64_pos.
  pose proof (mathematicalValue_lower amount v Hv Hpos) as Hlow.
  eapply Qle_trans; [apply least_double_below|].
  eapply Qle_trans; [|exact Hlow].
  set (n := (String.length amount - 1)%nat) in *.
  assert (Hpn : 0 < 10 ^ Z.of_nat n) by (apply Z.pow_pos_nonneg; lia).
  assert (Hn : 10 ^ Z.of_nat n <= 10 ^ 322)
    by (apply Z.pow_le_mono_r; lia).
  rewrite Zle_Qle in Hn. rewrite Zlt_Qlt in Hpn.
  change (inject_Z 0) with 0%Q in Hpn.
  set (a := inject_Z (10 ^ Z.of_nat n)) in *.
  set (b := inject_Z (10 ^ 322)) in *.
  assert (Hb : (0 < b)%Q) by lra.
  apply Qle_shift_div_l; [done|].
  assert (E : (1 / b * a == a / b)%Q) by (field; lra).
  rewrite E. apply Qle_shift_div_r; [done|lra].
Qed.

Lemma isFormValid_spec s :
  isFormValid s = true
  <-> is_Some (selectedFile s)
      /\ loanAmount s <> ""
      /\ positiveAmount (loanAmount s).
Proof.
  unfold isFormValid, positiveAmount.
  destruct (selectedFile s) as [file|].
  - rewrite andb_true_iff, negb_true_iff, bool_decide_eq_false.
    split; [intros [? ?]; eauto|]. by intros (_ & ? & ?).
  - split; [done|]. by intros [[? ?] _].
Qed.

Lemma index_run_cons s e evs : run s (e :: evs) = run (handle s e) evs.
Proof. reflexivity. Qed.

Lemma fromRequest_mono requests r target :
  fromRequest requests target -> fromRequest (r :: requests) target.
Proof.
  intros (r' & Hin & H1 & H2). exists r'. split; [by right | done].
Qed.

Lemma wellFormed_initial : wellFormed initial.
Proof.
  repeat split; cbn; try done; try constructor.
Qed.

Lemma wellFormed_upload u s :
  (forall file, u = Selected file -> file_type file = "application/pdf") ->
  wellFormed s -> wellFormed (upload u s).
Proof.
  intros Hu (H1 & H2 & H3 & H4 & H5 & H6).
  destruct u as [file| |]; cbn; repeat split; try done.
  intros file' [= <-]. by apply Hu.
Qed.

Lemma handleDrop_pdf files file :
  handleDrop files = Selected file -> file_type file = "application/pdf".
Proof.
  destruct files as [|f rest]; [done|]. cbn.
  destruct (decide _); [|done]. by intros [= <-].
Qed.

Lemma handleFileChange_pdf files file :
  handleFileChange files = Selected file -> file_type file = "application/pdf".
Proof.
  destruct files as [[|f rest]|]; try done. cbn.
  destruct (decide _); [|done]. by intros [= <-].
Qed.

Lemma wellFormed_handle s e : wellFormed s -> wellFormed (handle s e).
Proof.
  intros H. destruct e as [files|files|value| |i a]; cbn [handle].
  - apply wellFormed_upload; [|done]. intros file. apply handleDrop_pdf.
  - apply wellFormed_upload; [|done]. intros file. apply handleFileChange_pdf.
  - unfold handleLoanAmountChange.
    destruct (bool_decide (value = "") || amountPattern_test value) eqn:E;
      [|done].
    destruct H as (H1 & H2 & H3 & H4 & H5 & H6).
    refine (conj _ (conj H2 (conj H3 (conj H4 (conj H5 H6))))). cbn.
    apply orb_true_iff in E as [E|E]; [|done].
    apply bool_decide_eq_true in E. by subst.
  - destruct (isFormValid s) eqn:E; [|done].
    apply isFormValid_spec in E as ([file Hf] & Hne & Hpos).
    destruct H as (H1 & H2 & H3 & H4 & H5 & H6).
    unfold handleStartAnalysis. rewrite Hf.
    rewrite bool_decide_eq_false_2 by done.
    refine (conj H1 (conj _ (conj _ (conj _ (conj _ _))))); cbn.
    + intros ? [= <-]. by apply H2.
    + constructor; [|done]. split; [by apply H2|]. by repeat split.
    + intros r [Hr|Hr%list_elem_of_singleton]%elem_of_app.
      * right. by apply H4.
      * subst. by left.
    + eapply Forall_impl; [exact H5|]. intros target.
      apply fromRequest_mono.
    + rewrite length_app. cbn. lia.
  - unfold onAnswer. destruct (pending s !! i) as [request|] eqn:Ei; [|done].
    destruct H as (H1 & H2 & H3 & H4 & H5 & H6).
    assert (Hin : request ∈ sent s).
    { apply H4. eapply list_elem_of_lookup_2, Ei. }
    assert (Hpos : (0 < length (pending s))%nat).
    { apply lookup_lt_Some in Ei. lia. }
    assert (Hlen : length (delete i (pending s)) = pred (length (pending s))).
    { rewrite length_delete by eauto. lia. }
    refine (conj H1 (conj H2 (conj H3 (conj _ (conj _ _))))); cbn.
    + intros r Hr. apply H4. by eapply list_elem_of_delete_inv.
    + destruct a; try done. constructor; [|done]. by exists request.
    + destruct a; cbn; lia.
Qed.

Lemma wellFormed_run s evs : wellFormed s -> wellFormed (run s evs).
Proof.
  revert s; induction evs as [|e evs IH]; intros s H; [done|].
  rewrite index_run_cons. by apply IH, wellFormed_handle.
Qed.

End IndexPageFacts.

(** X19.  The amount field accepts exactly the strings made of digits with
    at most one point among them (the empty string included); a change to
    any other string is dropped and leaves the field as it was, so in every
    run of the entry page the field holds such a string. *)
Theorem X19_amount_field_language (value : string) :
  (IndexPage.amountPattern_test value = true
   <-> IndexPage.allDigits value = true
       \/ exists a b,
            IndexPage.allDigits a = true /\ IndexPage.allDigits b = true
            /\ value = a +:+ "." +:+ b)
  /\ (forall s,
        IndexPage.amountPattern_test value = false ->
        IndexPage.handle s (IndexPage.AmountChange value) = s)
  /\ (forall s,
        IndexPage.amountPattern_test value = true ->
        IndexPage.loanAmount
          (IndexPage.handle s (IndexPage.AmountChange value)) = value)
  /\ (forall events,
        IndexPage.amountPattern_test
          (IndexPage.loanAmount (IndexPage.run IndexPage.initial events))
        = true).
Proof.
  split; [apply IndexPageFacts.amountPattern_test_spec|].
  split; [|split].
  - intros s Hf. cbn. unfold IndexPage.handleLoanAmountChange. rewrite Hf.
    destruct (bool_decide (value = "")) eqn:E; [|done].
    apply bool_decide_eq_true in E. subst. discriminate.
  - intros s Ht. cbn. unfold IndexPage.handleLoanAmountChange.
    by rewrite Ht, orb_true_r.
  - intros events.
    apply (IndexPageFacts.wellFormed_run _ events
             IndexPageFacts.wellFormed_initial).
Qed.

(** X20.  The upload area looks at the first file only: if it is a PDF it
    becomes the selected file, whatever follows it; if it is not, an alert is
    raised and the earlier selection stays.  So in every run of the entry
    page the selected file, if any, has the type [application/pdf]. *)
Theorem X20_only_pdf_is_selected
    (s : IndexPage.State) (first : IndexPage.File)
    (others : list IndexPage.File) :
  (IndexPage.file_type first = "application/pdf" ->
   IndexPage.selectedFile
     (IndexPage.handle s (IndexPage.Drop (first :: others))) = Some first
   /\ IndexPage.selectedFile
        (IndexPage.handle s (IndexPage.FileChange (Some (first :: others))))
      = Some first)
  /\ (IndexPage.file_type first <> "application/pdf" ->
      IndexPage.selectedFile
        (IndexPage.handle s (IndexPage.Drop (first :: others)))
      = IndexPage.selectedFile s
      /\ IndexPage.alerts
           (IndexPage.handle s (IndexPage.Drop (first :: others)))
         = S (IndexPage.alerts s)
      /\ IndexPage.selectedFile
           (IndexPage.handle s (IndexPage.FileChange (Some (first :: others))))
         = IndexPage.selectedFile s)
  /\ IndexPage.handle s (IndexPage.Drop []) = s
  /\ IndexPage.handle s (IndexPage.FileChange None) = s
  /\ (forall events file,
        IndexPage.selectedFile (IndexPage.run IndexPage.initial events)
          = Some file ->
        IndexPage.file_type file = "application/pdf").
Proof.
  split; [|split; [|split; [done|split; [done|]]]].
  - intros Hp. cbn. by rewrite !decide_True.
  - intros Hp. cbn. by rewrite !decide_False.
  - intros events.
    apply (IndexPageFacts.wellFormed_run _ events
             IndexPageFacts.wellFormed_initial).
Qed.

(** X21.  In every run of the entry page the button 'Start Analysis' is
    enabled only when a file is selected and the amount has a digit from 1
    to 9, and it is enabled whenever that holds and the amount has at most
    323 characters: an empty amount, a lone point and amounts such as 0 or
    0.00 keep it disabled.  The bound is where it has to be: an amount with
    a 1 after 322 zeros behind the point enables the button, and one with a
    1 after 323 zeros is read as the double 0 and keeps it disabled. *)
Theorem X21_form_valid_iff_nonzero_amount (events : list IndexPage.Event) :
  let s := IndexPage.run IndexPage.initial events in
  (IndexPage.isFormValid s = true ->
   is_Some (IndexPage.selectedFile s)
   /\ IndexPage.hasNonzeroDigit (IndexPage.loanAmount s) = true)
  /\ (is_Some (IndexPage.selectedFile s) ->
      IndexPage.hasNonzeroDigit (IndexPage.loanAmount s) = true ->
      (String.length (IndexPage.loanAmount s) <= 323)%nat ->
      IndexPage.isFormValid s = true)
  /\ (forall file amount,
        amount ∈ [""; "."; "0"; "0.00"; IndexPage.tinyAmount] ->
        IndexPage.isFormValid
          (IndexPage.handleLoanAmountChange amount
             (IndexPage.upload (IndexPage.Selected file) IndexPage.initial))
        = false)
  /\ (forall file amount,
        amount ∈ ["5"; "12.50"; ".5"; "5."; IndexPage.leastAmount] ->
        IndexPage.isFormValid
          (IndexPage.handleLoanAmountChange amount
             (IndexPage.upload (IndexPage.Selected file) IndexPage.initial))
        = true)
  /\ IndexPage.amountPattern_test IndexPage.tinyAmount = true
  /\ IndexPage.hasNonzeroDigit IndexPage.tinyAmount = true
  /\ String.length IndexPage.tinyAmount = 326%nat
  /\ String.length IndexPage.leastAmount = 325%nat
  /\ IndexPage.parseFloat IndexPage.tinyAmount = Finite 0.
Proof.
  intros s.
  destruct (IndexPageFacts.wellFormed_run _ events
              IndexPageFacts.wellFormed_initial) as (Ht & _).
  fold s in Ht.
  rewrite IndexPageFacts.isFormValid_spec.
  pose proof (IndexPageFacts.mathematicalValue_nonzero _ Ht) as Hnz.
  split; [|split].
  - intros (Hf & _ & Hp). split; [done|].
    apply Hnz. by apply IndexPageFacts.positiveAmount_exact.
  - intros Hf Hn Hlen. split; [done|]. split.
    + intros E. rewrite E in Hn. discriminate.
    + apply Hnz in Hn as (v & Hv & Hpos).
      by apply (IndexPageFacts.positiveAmount_short _ v).
  - split.
    { intros file amount Ha.
      repeat (apply elem_of_cons in Ha as [->|Ha]; [by vm_compute|]).
      by apply elem_of_nil in Ha. }
    split.
    { intros file amount Ha.
      repeat (apply elem_of_cons in Ha as [->|Ha]; [by vm_compute|]).
      by apply elem_of_nil in Ha. }
    repeat split; by vm_compute.
Qed.

(** X22.  In every run of the entry page every request sent to [/analyze]
    carries a file of type [application/pdf] and a non-empty amount that the
    field accepts and that is a positive number; every navigation to the
    progress page carries the file name and the amount of such a request,
    and there are never more navigations and waiting calls together than
    requests sent. *)
Theorem X22_requests_are_valid (events : list IndexPage.Event) :
  let s := IndexPage.run IndexPage.initial events in
  Forall IndexPage.validRequest (IndexPage.sent s)
  /\ Forall (IndexPage.fromRequest (IndexPage.sent s)) (IndexPage.navigations s)
  /\ (length (IndexPage.navigations s) + length (IndexPage.pending s)
      <= length (IndexPage.sent s))%nat.
Proof.
  intros s.
  destruct (IndexPageFacts.wellFormed_run _ events
              IndexPageFacts.wellFormed_initial) as (_ & _ & H3 & _ & H5 & H6).
  by repeat split.
Qed.

(** X23.  When an [ok] answer of [/analyze] has no [session_id], the entry
    page navigates to the progress page all the same, and the progress page
    opened with that state goes straight back to ['/'] without sending a
    status request; with a non-empty [session_id] it is mounted, sets its
    timer and has sent its first status request. *)
Theorem X23_answer_without_session_bounces
    (s : IndexPage.State) (i : nat) (request : IndexPage.AnalyzeRequest)
    (session_id : option string) :
  IndexPage.pending s !! i = Some request ->
  let s' := IndexPage.handle s (IndexPage.Answered i (IndexPage.AnalyzeOk session_id)) in
  let target :=
    IndexPage.mkProcessingState session_id
      (IndexPage.file_name (IndexPage.req_file request))
      (IndexPage.req_loan_amount request) in
  IndexPage.navigations s' = target :: IndexPage.navigations s
  /\ IndexPage.pending s' = delete i (IndexPage.pending s)
  /\ (session_id = None \/ session_id = Some "" ->
      forall events,
        navigations (run (IndexPage.openProcessing target) events) = ["/"]
        /\ progressRequests (run (IndexPage.openProcessing target) events)
           = 0%nat)
  /\ (forall c sid, session_id = Some (String c sid) ->
        isMounted (IndexPage.openProcessing target) = true
        /\ pollInterval (IndexPage.openProcessing target) = true
        /\ progressRequests (IndexPage.openProcessing target) = 1%nat
        /\ navigations (IndexPage.openProcessing target) = []).
Proof.
  intros Hp s' target. subst s'. cbn [IndexPage.handle].
  unfold IndexPage.onAnswer. rewrite Hp. cbn.
  split; [done|]. split; [done|]. split.
  - intros Hs events.
    assert (E : IndexPage.openProcessing target = mount "").
    { unfold IndexPage.openProcessing, target. cbn.
      by destruct Hs as [-> | ->]. }
    rewrite E.
    destruct (tornDown_run (mount "") events) as [_ (_&_&_&H4&H5&_)];
      [by split|].
    by rewrite H4, H5.
  - intros c sid ->. done.
Qed.

(** X23, for an answer without a [session_id] to the only waiting call. *)
Lemma X23_answer_witness :
  IndexPage.navigations
    (IndexPage.handle
       (IndexPage.run IndexPage.initial
          [IndexPage.Drop [IndexPage.mkFile "a.pdf" "application/pdf"];
           IndexPage.AmountChange "100";
           IndexPage.ClickStart])
       (IndexPage.Answered 0 (IndexPage.AnalyzeOk None)))
  = [IndexPage.mkProcessingState None "a.pdf" "100"].
Proof.
  apply (X23_answer_without_session_bounces
           (IndexPage.run IndexPage.initial
              [IndexPage.Drop [IndexPage.mkFile "a.pdf" "application/pdf"];
               IndexPage.AmountChange "100";
               IndexPage.ClickStart])
           0 _ None eq_refl).
Defined.
